(** * pmm-managed: scheduler tasks and the backup/restore orchestrator

    A shallow embedding of
    - [services/scheduler] task variants ([common], [printTask],
      [mySQLBackupTask], [mongoBackupTask]),
    - [services/backup] [BackupsService] ([StartBackup],
      [prepareBackupJob], [prepareRestoreJob], [startRestoreJob],
      [RestoreBackup]) over a model of the models package and of
      reform's transactions, and
    - the scheduler's registry and run loop as the specification
      describes them,
    together with the properties the specification states about them. *)

From stdpp Require Import base option list strings gmap.
From Stdlib Require Import String List Bool Arith Lia DecimalString.
Import ListNotations.
From Stdlib Require Import ZArith.

(** Further embedded, with the properties their code shows:
    - [services/prometheus]: [reload], [marshalConfig],
      [saveConfigAndReload], [UpdateConfiguration], [Check], over a model of
      the files, of promtool and of Prometheus's answers;
    - [services/vmalert]: [IsReady], [reload], [updateConfiguration],
      [RequestConfigurationUpdate] and the loop of [Run];
    - the generated client of Node/Register: [ReadResponse] and the
      validation of [RegisterNodeBody];
    - [handlers]: [AgentServer.Connect]. *)

Local Open Scope string_scope.
Local Open Scope list_scope.

(* ===================================================================== *)
(** ** Go errors *)
(* ===================================================================== *)

(** [google.golang.org/grpc/codes]. *)
Inductive Code : Set :=
| OK | Canceled | Unknown | InvalidArgument | DeadlineExceeded | NotFound
| AlreadyExists | PermissionDenied | ResourceExhausted | FailedPrecondition
| Aborted | OutOfRange | Unimplemented | Internal | Unavailable | DataLoss
| Unauthenticated.

(** The two ways the sources build an error value:
    [status.Errorf(code, format, ...)] gives an error that carries a gRPC
    status code, [errors.Errorf(format, ...)] (github.com/pkg/errors) gives
    a bare message with a stack and no code. *)
Inductive error : Type :=
| status_Errorf (c : Code) (msg : string)
| errors_Errorf (msg : string).

(** [status.FromError]: the status carried by an error, if it carries one. *)
Definition status_FromError (e : error) : option Code :=
  match e with
  | status_Errorf c _ => Some c
  | errors_Errorf _ => None
  end.

(** [status.Code]: the carried code, and [Unknown] for an error that
    carries none. *)
Definition status_Code (e : error) : Code :=
  match status_FromError e with
  | Some c => c
  | None => Unknown
  end.

(** A Go result [(T, error)]. *)
Definition result (A : Type) : Type := error + A.

(* ===================================================================== *)
(** ** services/scheduler: tasks *)
(* ===================================================================== *)

Module scheduler.

(** [models.ScheduledTaskType]: the three tags the task variants return. *)
Inductive ScheduledTaskType : Set :=
| ScheduledPrintTask
| ScheduledMySQLBackupTask
| ScheduledMongoBackupTask.

(** [models.PrintTaskData], [models.MySQLBackupTaskData],
    [models.MongoBackupTaskData]: the fields the [Data] methods fill. *)
Record PrintTaskData : Set := { pd_Message : string }.

Record MySQLBackupTaskData : Set :=
  { my_ServiceID : string; my_LocationID : string;
    my_Name : string; my_Description : string }.

Record MongoBackupTaskData : Set :=
  { mg_ServiceID : string; mg_LocationID : string;
    mg_Name : string; mg_Description : string }.

(** [models.ScheduledTaskData]: one pointer per variant, nil when unused. *)
Record ScheduledTaskData : Set :=
  { Print : option PrintTaskData;
    MySQLBackupTask : option MySQLBackupTaskData;
    MongoBackupTask : option MongoBackupTaskData }.

(** [type common struct { id string }]. *)
Record common : Set := { id : string }.

Definition common_ID (c : common) : string := id c.

(** [func (c *common) SetID(id string) { c.id = id }]: the receiver after
    the call. *)
Definition common_SetID (c : common) (i : string) : common := {| id := i |}.

Section Tasks.

(** The [backupsLogicService] interface value a backup task is built with
    and the outcome of its [PerformBackup] method. *)
Variable backupsLogicService : Type.
Variable PerformBackup :
  backupsLogicService -> string -> string -> string -> result string.

(** The task variants.  Every constructor allocates its own [common] cell
    ([common: &common{}]), so a task owns its identity and the embedded
    pointer is carried by value. *)
Inductive Task : Type :=
| printTask (c : common) (Message : string)
| mySQLBackupTask (c : common) (svc : backupsLogicService)
    (ServiceID LocationID Name Description : string)
| mongoBackupTask (c : common) (svc : backupsLogicService)
    (ServiceID LocationID Name Description : string).

Definition NewPrintTask (message : string) : Task :=
  printTask {| id := "" |} message.

Definition NewMySQLBackupTask (svc : backupsLogicService)
    (serviceID locationID name description : string) : Task :=
  mySQLBackupTask {| id := "" |} svc serviceID locationID name description.

Definition NewMongoBackupTask (svc : backupsLogicService)
    (serviceID locationID name description : string) : Task :=
  mongoBackupTask {| id := "" |} svc serviceID locationID name description.

(** The promoted methods of the embedded [*common]. *)
Definition ID (t : Task) : string :=
  match t with
  | printTask c _ => common_ID c
  | mySQLBackupTask c _ _ _ _ _ => common_ID c
  | mongoBackupTask c _ _ _ _ _ => common_ID c
  end.

Definition SetID (i : string) (t : Task) : Task :=
  match t with
  | printTask c m => printTask (common_SetID c i) m
  | mySQLBackupTask c svc s l n d =>
      mySQLBackupTask (common_SetID c i) svc s l n d
  | mongoBackupTask c svc s l n d =>
      mongoBackupTask (common_SetID c i) svc s l n d
  end.

Definition Type_ (t : Task) : ScheduledTaskType :=
  match t with
  | printTask _ _ => ScheduledPrintTask
  | mySQLBackupTask _ _ _ _ _ _ => ScheduledMySQLBackupTask
  | mongoBackupTask _ _ _ _ _ _ => ScheduledMongoBackupTask
  end.

Definition Data (t : Task) : ScheduledTaskData :=
  match t with
  | printTask _ m =>
      {| Print := Some {| pd_Message := m |};
         MySQLBackupTask := None; MongoBackupTask := None |}
  | mySQLBackupTask _ _ s l n d =>
      {| Print := None;
         MySQLBackupTask :=
           Some {| my_ServiceID := s; my_LocationID := l;
                   my_Name := n; my_Description := d |};
         MongoBackupTask := None |}
  | mongoBackupTask _ _ s l n d =>
      {| Print := None; MySQLBackupTask := None;
         MongoBackupTask :=
           Some {| mg_ServiceID := s; mg_LocationID := l;
                   mg_Name := n; mg_Description := d |} |}
  end.

(** [Do]: the print task writes its message to standard output (the lines
    written so far are the state) and returns nil; the backup tasks return
    the error of [PerformBackup], dropping the job id. *)
Definition Do (t : Task) (stdout : list string) : list string * option error :=
  match t with
  | printTask _ m => (stdout ++ [m], None)
  | mySQLBackupTask _ svc s l n _
  | mongoBackupTask _ svc s l n _ =>
      match PerformBackup svc s l n with
      | inl e => (stdout, Some e)
      | inr _ => (stdout, None)
      end
  end.

(** The calls a holder of a task can make without running it.  A call
    takes the task as it is and gives back the task as the method leaves
    it, with what the method returned. *)
Inductive reading : Set := CallData | CallType.

Inductive observed : Set :=
| GotData (d : ScheduledTaskData)
| GotType (ty : ScheduledTaskType).

Definition call (r : reading) (t : Task) : Task * observed :=
  match r with
  | CallData => (t, GotData (Data t))
  | CallType => (t, GotType (Type_ t))
  end.

Fixpoint calls (rs : list reading) (t : Task) : Task * list observed :=
  match rs with
  | [] => (t, [])
  | r :: rs' =>
      let '(t1, o) := call r t in
      let '(t2, os) := calls rs' t1 in
      (t2, o :: os)
  end.

(** Modelled from the spec: the type-tag to constructor registry that
    rebuilds a task from a persisted ScheduledTask row is not among the
    sources.  The spec (4.1, 9) has it pick the constructor by the persisted
    type tag and feed it the persisted data snapshot, never inspecting a
    runtime type; a snapshot that lacks the part its tag needs rebuilds
    nothing. *)
Definition construct (svc : backupsLogicService)
    (ty : ScheduledTaskType) (d : ScheduledTaskData) : option Task :=
  match ty with
  | ScheduledPrintTask =>
      match Print d with
      | Some p => Some (NewPrintTask (pd_Message p))
      | None => None
      end
  | ScheduledMySQLBackupTask =>
      match MySQLBackupTask d with
      | Some p =>
          Some (NewMySQLBackupTask svc (my_ServiceID p) (my_LocationID p)
                  (my_Name p) (my_Description p))
      | None => None
      end
  | ScheduledMongoBackupTask =>
      match MongoBackupTask d with
      | Some p =>
          Some (NewMongoBackupTask svc (mg_ServiceID p) (mg_LocationID p)
                  (mg_Name p) (mg_Description p))
      | None => None
      end
  end.

(** Modelled from the spec: rebuilding a task after a restart from the id,
    type tag and data of its persisted row, "without losing identity"
    (4.1): the rebuilt task gets the row's id through [SetID]. *)
Definition reconstruct (svc : backupsLogicService) (i : string)
    (ty : ScheduledTaskType) (d : ScheduledTaskData) : option Task :=
  match construct svc ty d with
  | Some t => Some (SetID i t)
  | None => None
  end.

End Tasks.

Arguments printTask {backupsLogicService} c Message.
Arguments mySQLBackupTask {backupsLogicService} c svc
  ServiceID LocationID Name Description.
Arguments mongoBackupTask {backupsLogicService} c svc
  ServiceID LocationID Name Description.
Arguments NewPrintTask {backupsLogicService} message.
Arguments NewMySQLBackupTask {backupsLogicService} svc
  serviceID locationID name description.
Arguments NewMongoBackupTask {backupsLogicService} svc
  serviceID locationID name description.
Arguments ID {backupsLogicService} t.
Arguments SetID {backupsLogicService} i t.
Arguments Type_ {backupsLogicService} t.
Arguments Data {backupsLogicService} t.
Arguments Do {backupsLogicService} PerformBackup t stdout.
Arguments call {backupsLogicService} r t.
Arguments calls {backupsLogicService} rs t.
Arguments construct {backupsLogicService} svc ty d.
Arguments reconstruct {backupsLogicService} svc i ty d.

End scheduler.

(* ===================================================================== *)
(** ** The models package as the backup service uses it *)
(* ===================================================================== *)

(** A computation inside a transaction: it reads and writes the querier's
    view [Q] of the tables and either fails with an error or returns. *)
Definition tx (Q A : Type) : Type := Q -> result (A * Q).

Global Instance tx_ret {Q} : MRet (tx Q) := fun A a q => inr (a, q).

Global Instance tx_bind {Q} : MBind (tx Q) := fun A B k m q =>
  match m q with
  | inl e => inl e
  | inr (a, q') => k a q'
  end.

(** [return err] inside the transaction body. *)
Definition tx_fail {Q A} (e : error) : tx Q A := fun _ => inl e.

(** A query that only reads. *)
Definition tx_read {Q A} (f : Q -> result A) : tx Q A := fun q =>
  match f q with
  | inl e => inl e
  | inr a => inr (a, q)
  end.

Module models.

Definition ServiceType : Set := string.

(** Modelled from the spec: the [ServiceType] constants are declared in the
    models package, which is not among the sources.  The spec (8) gives the
    vendor string of a MySQL service as "mysql"; the other five are the
    remaining distinct constants the [switch] statements name. *)
Definition MySQLServiceType : ServiceType := "mysql".

(** Modelled from the spec: see [MySQLServiceType]. *)
Definition PostgreSQLServiceType : ServiceType := "postgresql".

(** Modelled from the spec: see [MySQLServiceType]. *)
Definition MongoDBServiceType : ServiceType := "mongodb".

(** Modelled from the spec: see [MySQLServiceType]. *)
Definition ProxySQLServiceType : ServiceType := "proxysql".

(** Modelled from the spec: see [MySQLServiceType]. *)
Definition HAProxyServiceType : ServiceType := "haproxy".

(** Modelled from the spec: see [MySQLServiceType]. *)
Definition ExternalServiceType : ServiceType := "external".

(** Modelled from the spec: the data models of an Artifact (3): logical,
    physical. *)
Inductive DataModel : Set := PhysicalDataModel | LogicalDataModel.

(** Modelled from the spec: the statuses of an Artifact (3): pending,
    running, success, failed. *)
Inductive BackupStatus : Set :=
| PendingBackupStatus | InProgressBackupStatus
| SuccessBackupStatus | ErrorBackupStatus.

(** Modelled from the spec: the statuses of a RestoreHistoryItem (3). *)
Inductive RestoreStatus : Set :=
| InProgressRestoreStatus | SuccessRestoreStatus | ErrorRestoreStatus.

(** The two job types the service creates rows for. *)
Inductive JobType : Set := MySQLBackupJob | MySQLRestoreBackupJob.

(** The rows and parameter structs of the models package, with the fields
    the service reads or fills. *)
Record Service : Set :=
  { ServiceID : string; Service_ServiceType : ServiceType }.

Record Agent : Set := { AgentID : string }.

Record CreateArtifactParams : Set :=
  { cap_Name : string; cap_Vendor : string; cap_LocationID : string;
    cap_ServiceID : string; cap_DataModel : DataModel;
    cap_Status : BackupStatus }.

Record Artifact : Set :=
  { Artifact_ID : string; Artifact_Name : string; Artifact_Vendor : string;
    Artifact_LocationID : string; Artifact_ServiceID : string;
    Artifact_DataModel : DataModel; Artifact_Status : BackupStatus }.

Record MySQLBackupJobResult : Set := { ArtifactID : string }.
Record MySQLRestoreBackupJobResult : Set := { RestoreID : string }.

(** [models.JobResultData]: one pointer per job kind. *)
Record JobResultData : Set :=
  { MySQLBackup : option MySQLBackupJobResult;
    MySQLRestoreBackup : option MySQLRestoreBackupJobResult }.

Record JobResult : Set :=
  { JobResult_ID : string; PMMAgentID : string;
    JobResult_Type : JobType; JobResult_Data : JobResultData }.

Record CreateRestoreHistoryItemParams : Set :=
  { crp_ArtifactID : string; crp_ServiceID : string;
    crp_Status : RestoreStatus }.

Record RestoreHistoryItem : Set :=
  { RestoreHistoryItem_ID : string; rhi_ArtifactID : string;
    rhi_ServiceID : string; rhi_Status : RestoreStatus }.

(** What the store is asked to do, with the arguments of the request. *)
Inductive StoreOp : Set :=
| OpBegin
| OpCommit
| OpFindServiceByID (id : string)
| OpFindBackupLocationByID (id : string)
| OpFindArtifactByID (id : string)
| OpFindDBConfigForService (serviceID : string)
| OpFindPMMAgentsForService (serviceID : string)
| OpCreateArtifact (params : CreateArtifactParams)
| OpCreateJobResult (pmmAgentID : string) (jobType : JobType)
    (data : JobResultData)
| OpCreateRestoreHistoryItem (params : CreateRestoreHistoryItemParams).

Section Store.

(** The configuration payloads of a location and of a database connection
    are declared in the models package; the service only copies them. *)
Context {PMMServerLocationConfig PMMClientLocationConfig
         S3LocationConfig DBConfig : Type}.

Record BackupLocation : Type :=
  { BackupLocation_ID : string;
    PMMServerConfig : option PMMServerLocationConfig;
    PMMClientConfig : option PMMClientLocationConfig;
    S3Config : option S3LocationConfig }.

Record BackupLocationConfig : Type :=
  { blc_PMMServerConfig : option PMMServerLocationConfig;
    blc_PMMClientConfig : option PMMClientLocationConfig;
    blc_S3Config : option S3LocationConfig }.

(** The tables behind [*reform.Querier].  [pmm_agents] relates a service id
    to a pmm-agent that can run jobs for it, [db_configs] a service id to
    its connection configuration; [serial] counts the rows created so far
    and indexes the source of row ids. *)
Record Querier : Type :=
  { services : list Service;
    locations : list BackupLocation;
    pmm_agents : list (string * Agent);
    db_configs : list (string * DBConfig);
    artifacts : list Artifact;
    job_results : list JobResult;
    restore_history : list RestoreHistoryItem;
    serial : nat }.

(** The failures of the store (7, StoreFailure): an operation fails with
    the given error, or goes through. *)
Variable fault : StoreOp -> option error.

(** The source of row ids. *)
Variable new_id : nat -> string.

(** A query that the store may fail. *)
Definition guarded {A} (op : StoreOp) (f : Querier -> result A)
  : Querier -> result A :=
  fun q => match fault op with
           | Some e => inl e
           | None => f q
           end.

(** Modelled from the spec: [models.FindServiceByID] is not among the
    sources.  It looks the row up by id and fails with NotFound when it is
    absent (4.3, 7); the wording of the message is not given. *)
Definition FindServiceByID (id : string) : Querier -> result Service :=
  guarded (OpFindServiceByID id) (fun q =>
    match find (fun s => String.eqb (ServiceID s) id) (services q) with
    | Some s => inr s
    | None => inl (status_Errorf NotFound
                     ("Service with ID " ++ id ++ " not found."))
    end).

(** Modelled from the spec: [models.FindBackupLocationByID] is not among
    the sources.  Lookup by id, NotFound when absent (4.3, 7). *)
Definition FindBackupLocationByID (id : string)
  : Querier -> result BackupLocation :=
  guarded (OpFindBackupLocationByID id) (fun q =>
    match find (fun l => String.eqb (BackupLocation_ID l) id) (locations q) with
    | Some l => inr l
    | None => inl (status_Errorf NotFound
                     ("Backup location with ID " ++ id ++ " not found."))
    end).

(** Modelled from the spec: [models.FindArtifactByID] is not among the
    sources.  Lookup by id, NotFound when absent (4.3, 7). *)
Definition FindArtifactByID (id : string) : Querier -> result Artifact :=
  guarded (OpFindArtifactByID id) (fun q =>
    match find (fun a => String.eqb (Artifact_ID a) id) (artifacts q) with
    | Some a => inr a
    | None => inl (status_Errorf NotFound
                     ("Artifact with ID " ++ id ++ " not found."))
    end).

(** Modelled from the spec: [models.FindDBConfigForService] is not among
    the sources.  It resolves the connection configuration of a service and
    fails when there is none (4.3 step 2); the kind of that error is not
    given. *)
Definition FindDBConfigForService (serviceID : string)
  : Querier -> result DBConfig :=
  guarded (OpFindDBConfigForService serviceID) (fun q =>
    match find (fun p => String.eqb (fst p) serviceID) (db_configs q) with
    | Some p => inr (snd p)
    | None => inl (status_Errorf FailedPrecondition "No DB config found.")
    end).

(** Modelled from the spec: [models.FindPMMAgentsForService] is not among
    the sources.  It returns the agents able to run jobs for the service, in
    the order the store lists them; none is not an error (4.3 step 2). *)
Definition FindPMMAgentsForService (serviceID : string)
  : Querier -> result (list Agent) :=
  guarded (OpFindPMMAgentsForService serviceID) (fun q =>
    inr (map snd
           (filter (fun p => String.eqb (fst p) serviceID) (pmm_agents q)))).

(** Modelled from the spec: one more Artifact row (the insert of
    [models.CreateArtifact]); every insert draws one id. *)
Definition insert_artifact (row : Artifact) (q : Querier) : Querier :=
  {| services := services q; locations := locations q;
     pmm_agents := pmm_agents q; db_configs := db_configs q;
     artifacts := artifacts q ++ [row];
     job_results := job_results q;
     restore_history := restore_history q;
     serial := S (serial q) |}.

(** Modelled from the spec: one more JobResult row. *)
Definition insert_job_result (row : JobResult) (q : Querier) : Querier :=
  {| services := services q; locations := locations q;
     pmm_agents := pmm_agents q; db_configs := db_configs q;
     artifacts := artifacts q;
     job_results := job_results q ++ [row];
     restore_history := restore_history q;
     serial := S (serial q) |}.

(** Modelled from the spec: one more RestoreHistoryItem row. *)
Definition insert_restore_history_item (row : RestoreHistoryItem)
    (q : Querier) : Querier :=
  {| services := services q; locations := locations q;
     pmm_agents := pmm_agents q; db_configs := db_configs q;
     artifacts := artifacts q;
     job_results := job_results q;
     restore_history := restore_history q ++ [row];
     serial := S (serial q) |}.

(** Modelled from the spec: [models.CreateArtifact] is not among the
    sources.  It inserts one row built from its parameters under a new id
    and returns it (3, 4.3). *)
Definition CreateArtifact (params : CreateArtifactParams)
  : tx Querier Artifact :=
  fun q =>
    match fault (OpCreateArtifact params) with
    | Some e => inl e
    | None =>
        let row := {| Artifact_ID := new_id (serial q);
                      Artifact_Name := cap_Name params;
                      Artifact_Vendor := cap_Vendor params;
                      Artifact_LocationID := cap_LocationID params;
                      Artifact_ServiceID := cap_ServiceID params;
                      Artifact_DataModel := cap_DataModel params;
                      Artifact_Status := cap_Status params |} in
        inr (row, insert_artifact row q)
    end.

(** Modelled from the spec: [models.CreateJobResult] is not among the
    sources.  One JobResult row for the given agent, job type and tagged
    payload, under a new id (3, 4.3). *)
Definition CreateJobResult (pmmAgentID : string) (jobType : JobType)
    (data : JobResultData) : tx Querier JobResult :=
  fun q =>
    match fault (OpCreateJobResult pmmAgentID jobType data) with
    | Some e => inl e
    | None =>
        let row := {| JobResult_ID := new_id (serial q);
                      PMMAgentID := pmmAgentID;
                      JobResult_Type := jobType;
                      JobResult_Data := data |} in
        inr (row, insert_job_result row q)
    end.

(** Modelled from the spec: [models.CreateRestoreHistoryItem] is not among
    the sources.  One RestoreHistoryItem row built from its parameters,
    under a new id (3, 4.3). *)
Definition CreateRestoreHistoryItem (params : CreateRestoreHistoryItemParams)
  : tx Querier RestoreHistoryItem :=
  fun q =>
    match fault (OpCreateRestoreHistoryItem params) with
    | Some e => inl e
    | None =>
        let row := {| RestoreHistoryItem_ID := new_id (serial q);
                      rhi_ArtifactID := crp_ArtifactID params;
                      rhi_ServiceID := crp_ServiceID params;
                      rhi_Status := crp_Status params |} in
        inr (row, insert_restore_history_item row q)
    end.

(** [InTransactionContext] of [reform.DB] (gopkg.in/reform.v1): begin,
    run the body, roll back when it returns an error and commit otherwise;
    nothing the body wrote stays unless the commit goes through. *)
Definition InTransactionContext {A} (db : Querier) (f : tx Querier A)
  : Querier * result A :=
  match fault OpBegin with
  | Some e => (db, inl e)
  | None =>
      match f db with
      | inl e => (db, inl e)
      | inr (a, db') =>
          match fault OpCommit with
          | Some e => (db, inl e)
          | None => (db', inr a)
          end
      end
  end.

End Store.

Arguments BackupLocation : clear implicits.
Arguments BackupLocationConfig : clear implicits.
Arguments Querier : clear implicits.

End models.

(* ===================================================================== *)
(** ** services/backup: BackupsService *)
(* ===================================================================== *)

Module backup.
Import models.

Record StartBackupRequest : Set :=
  { sbr_ServiceId : string; sbr_LocationId : string; sbr_Name : string }.

Record StartBackupResponse : Set := { ArtifactId : string }.

Record RestoreBackupRequest : Set :=
  { rbr_ServiceId : string; rbr_ArtifactId : string }.

Record RestoreBackupResponse : Set := { RestoreId : string }.

(** The second and third arms of the [switch] statements on the service
    type: the five types that are named but not served. *)
Definition unimplemented_service (t : ServiceType) : bool :=
  String.eqb t PostgreSQLServiceType
  || String.eqb t MongoDBServiceType
  || String.eqb t ProxySQLServiceType
  || String.eqb t HAProxyServiceType
  || String.eqb t ExternalServiceType.

Definition unimplemented_error (t : ServiceType) : error :=
  status_Errorf Unimplemented ("unimplemented service: " ++ t).

Definition unknown_error (t : ServiceType) : error :=
  status_Errorf Unknown ("unknown service: " ++ t).

Section BackupsService.

Context {PMMServerLocationConfig PMMClientLocationConfig
         S3LocationConfig DBConfig : Type}.

Local Abbreviation Querier :=
  (models.Querier PMMServerLocationConfig PMMClientLocationConfig
     S3LocationConfig DBConfig).
Local Abbreviation BackupLocation :=
  (models.BackupLocation PMMServerLocationConfig PMMClientLocationConfig
     S3LocationConfig).
Local Abbreviation BackupLocationConfig :=
  (models.BackupLocationConfig PMMServerLocationConfig
     PMMClientLocationConfig S3LocationConfig).

Variable fault : StoreOp -> option error.
Variable new_id : nat -> string.

(** The [jobsService] interface: the two calls the service makes on it,
    with their arguments in the order of the call (the interface is
    declared outside the sources; the spec (6) names its third and fourth
    argument the priority, for which the service passes 0). *)
Inductive JobCall : Type :=
| StartMySQLBackupJob (id pmmAgentID : string) (priority : nat)
    (name : string) (dbConfig : DBConfig)
    (locationConfig : BackupLocationConfig)
| StartMySQLRestoreBackupJob (jobID pmmAgentID serviceID : string)
    (priority : nat) (name : string) (locationConfig : BackupLocationConfig).

(** What the jobs service answers to a call: nil or an error. *)
Variable jobs_answer : JobCall -> option error.

(** [type BackupsService struct { db; jobsService }]: the state the
    service reaches through its two fields, the tables of the database and
    the calls the jobs service has received so far. *)
Record BackupsService : Type :=
  { db : Querier; jobsService : list JobCall }.

Definition send (c : JobCall) (s : BackupsService)
  : BackupsService * option error :=
  ({| db := db s; jobsService := jobsService s ++ [c] |}, jobs_answer c).

Definition prepareBackupJob (service : Service) (artifactID : string)
    (jobType : JobType) : tx Querier (JobResult * DBConfig) :=
  dbConfig ← tx_read (FindDBConfigForService fault (ServiceID service));
  pmmAgents ← tx_read (FindPMMAgentsForService fault (ServiceID service));
  match pmmAgents with
  | [] => tx_fail (errors_Errorf "pmmAgent not found for service")
  | a :: _ =>
      res ← CreateJobResult fault new_id (AgentID a) jobType
              {| MySQLBackup := Some {| ArtifactID := artifactID |};
                 MySQLRestoreBackup := None |};
      mret (res, dbConfig)
  end.

(** The body of the transaction of [StartBackup]; it returns what the
    closure leaves in [svc], [location], [artifact], [job] and [config]. *)
Definition StartBackup_tx (req : StartBackupRequest)
  : tx Querier (Service * BackupLocation * Artifact * JobResult * DBConfig) :=
  svc ← tx_read (FindServiceByID fault (sbr_ServiceId req));
  location ← tx_read (FindBackupLocationByID fault (sbr_LocationId req));
  dataModel ←
    (if String.eqb (Service_ServiceType svc) MySQLServiceType
     then mret PhysicalDataModel
     else if unimplemented_service (Service_ServiceType svc)
     then tx_fail (unimplemented_error (Service_ServiceType svc))
     else tx_fail (unknown_error (Service_ServiceType svc)));
  artifact ← CreateArtifact fault new_id
               {| cap_Name := sbr_Name req;
                  cap_Vendor := Service_ServiceType svc;
                  cap_LocationID := BackupLocation_ID location;
                  cap_ServiceID := ServiceID svc;
                  cap_DataModel := dataModel;
                  cap_Status := PendingBackupStatus |};
  '(job, config) ← prepareBackupJob svc (Artifact_ID artifact) MySQLBackupJob;
  mret (svc, location, artifact, job, config).

Definition locationConfig_of (location : BackupLocation)
  : BackupLocationConfig :=
  {| blc_PMMServerConfig := PMMServerConfig location;
     blc_PMMClientConfig := PMMClientConfig location;
     blc_S3Config := S3Config location |}.

Definition StartBackup (req : StartBackupRequest) (s : BackupsService)
  : BackupsService * result StartBackupResponse :=
  let '(db', r) := InTransactionContext fault (db s) (StartBackup_tx req) in
  let s1 := {| db := db'; jobsService := jobsService s |} in
  match r with
  | inl errTX => (s1, inl errTX)
  | inr (svc, location, artifact, job, config) =>
      let locationConfig := locationConfig_of location in
      if String.eqb (Service_ServiceType svc) MySQLServiceType then
        match send (StartMySQLBackupJob (JobResult_ID job) (PMMAgentID job)
                      0 (sbr_Name req) config locationConfig) s1 with
        | (s2, Some err) => (s2, inl err)
        | (s2, None) => (s2, inr {| ArtifactId := Artifact_ID artifact |})
        end
      else if unimplemented_service (Service_ServiceType svc) then
        (s1, inl (unimplemented_error (Service_ServiceType svc)))
      else
        (s1, inl (unknown_error (Service_ServiceType svc)))
  end.

Record prepareRestoreJobParams : Type :=
  { prj_AgentID : string;
    prj_ArtifactName : string;
    prj_Location : BackupLocation;
    prj_ServiceType : ServiceType }.

Definition prepareRestoreJob (serviceID artifactID : string)
  : tx Querier prepareRestoreJobParams :=
  service ← tx_read (FindServiceByID fault serviceID);
  artifact ← tx_read (FindArtifactByID fault artifactID);
  location ← tx_read (FindBackupLocationByID fault (Artifact_LocationID artifact));
  agents ← tx_read (FindPMMAgentsForService fault serviceID);
  match agents with
  | [] => tx_fail (errors_Errorf
                     ("cannot find pmm agent for service " ++ serviceID))
  | a :: _ =>
      mret {| prj_AgentID := AgentID a;
              prj_ArtifactName := Artifact_Name artifact;
              prj_Location := location;
              prj_ServiceType := Service_ServiceType service |}
  end.

Definition startRestoreJob (jobID serviceID : string)
    (params : prepareRestoreJobParams) (s : BackupsService)
  : BackupsService * option error :=
  let locationConfig := locationConfig_of (prj_Location params) in
  if String.eqb (prj_ServiceType params) MySQLServiceType then
    send (StartMySQLRestoreBackupJob jobID (prj_AgentID params) serviceID
            0 (prj_ArtifactName params) locationConfig) s
  else if unimplemented_service (prj_ServiceType params) then
    (s, Some (unimplemented_error (prj_ServiceType params)))
  else
    (s, Some (unknown_error (prj_ServiceType params))).

(** The body of the transaction of [RestoreBackup]; it returns what the
    closure leaves in [params], [jobID] and [restoreID]. *)
Definition RestoreBackup_tx (req : RestoreBackupRequest)
  : tx Querier (prepareRestoreJobParams * string * string) :=
  params ← prepareRestoreJob (rbr_ServiceId req) (rbr_ArtifactId req);
  restore ← CreateRestoreHistoryItem fault new_id
              {| crp_ArtifactID := rbr_ArtifactId req;
                 crp_ServiceID := rbr_ServiceId req;
                 crp_Status := InProgressRestoreStatus |};
  let restoreID := RestoreHistoryItem_ID restore in
  job ← CreateJobResult fault new_id (prj_AgentID params)
          MySQLRestoreBackupJob
          {| MySQLBackup := None;
             MySQLRestoreBackup := Some {| RestoreID := restoreID |} |};
  mret (params, JobResult_ID job, restoreID).

Definition RestoreBackup (req : RestoreBackupRequest) (s : BackupsService)
  : BackupsService * result RestoreBackupResponse :=
  let '(db', r) := InTransactionContext fault (db s) (RestoreBackup_tx req) in
  let s1 := {| db := db'; jobsService := jobsService s |} in
  match r with
  | inl err => (s1, inl err)
  | inr (params, jobID, restoreID) =>
      match startRestoreJob jobID (rbr_ServiceId req) params s1 with
      | (s2, Some err) => (s2, inl err)
      | (s2, None) => (s2, inr {| RestoreId := restoreID |})
      end
  end.

End BackupsService.

Arguments JobCall : clear implicits.
Arguments BackupsService : clear implicits.
Arguments prepareRestoreJobParams : clear implicits.

End backup.

(* ===================================================================== *)
(** ** services/scheduler: the registry and its run loop *)
(* ===================================================================== *)

Module registry.

(** Modelled from the spec: the durable ScheduledTask row (3).  Instants
    and durations are counted in ticks of the scheduler's clock;
    [failures] is the retry counter and [lastError] the error retained for
    inspection (4.2). *)
Record ScheduledTask : Type :=
  { task_type : scheduler.ScheduledTaskType;
    task_data : scheduler.ScheduledTaskData;
    cronExpression : string;
    enabled : bool;
    startAt : nat;
    retry : nat;
    retryInterval : nat;
    failures : nat;
    lastError : option error;
    nextFire : nat }.

(** Modelled from the spec: the scheduler service is not among the sources
    (only the mock of its Add/Remove/Run interface is).  Its state is the
    registry of scheduled tasks by id, the executions of [Do] that have
    been started and have not returned yet (one list element per
    execution, named by the id it runs for), and the clock. *)
Record Scheduler : Type :=
  { tasks : gmap string ScheduledTask;
    running : list string;
    now : nat }.

(** Modelled from the spec: what can happen to the scheduler.  [Add] and
    [Remove] are the calls of 4.2; [Tick] lets time pass; [Fire] is the run
    loop, awake and holding the registry, handling one entry whose fire
    time has passed; [Done] is an execution of [Do], which runs outside the
    registry's lock (5), returning with nil or its error. *)
Inductive event : Type :=
| Add (id : string) (t : ScheduledTask)
| Remove (id : string)
| Tick (d : nat)
| Fire (id : string)
| Done (id : string) (r : option error).

(** Modelled from the spec: the number of executions in flight for an
    id. *)
Definition in_flight (id : string) (s : Scheduler) : nat :=
  length (filter (String.eqb id) (running s)).

(** Modelled from the spec: whether an execution of the id is in
    flight. *)
Definition is_running (id : string) (s : Scheduler) : bool :=
  existsb (String.eqb id) (running s).

(** Modelled from the spec: one execution of [id] leaves the list of
    executions in flight. *)
Fixpoint finish (id : string) (l : list string) : list string :=
  match l with
  | [] => []
  | x :: l' => if String.eqb id x then l' else x :: finish id l'
  end.

Section Run.

(** The next instant after [t] at which a cron expression fires. *)
Variable cron_next : string -> nat -> nat.

(** Modelled from the spec: the retry state machine of 4.2, applied to the
    row when an execution returns at instant [t].  Success resets the
    counter and goes back to the cron schedule; a failure counts, and
    either schedules a retry [retryInterval] after the failure or, past
    [retry] failures, disables the task, keeping the error. *)
Definition settle (t : nat) (r : option error) (e : ScheduledTask)
  : ScheduledTask :=
  match r with
  | None =>
      {| task_type := task_type e; task_data := task_data e;
         cronExpression := cronExpression e; enabled := enabled e;
         startAt := startAt e; retry := retry e;
         retryInterval := retryInterval e;
         failures := 0; lastError := lastError e;
         nextFire := cron_next (cronExpression e) t |}
  | Some err =>
      let n := S (failures e) in
      if (n <=? retry e)%nat then
        {| task_type := task_type e; task_data := task_data e;
           cronExpression := cronExpression e; enabled := enabled e;
           startAt := startAt e; retry := retry e;
           retryInterval := retryInterval e;
           failures := n; lastError := Some err;
           nextFire := (t + retryInterval e)%nat |}
      else
        {| task_type := task_type e; task_data := task_data e;
           cronExpression := cronExpression e; enabled := false;
           startAt := startAt e; retry := retry e;
           retryInterval := retryInterval e;
           failures := n; lastError := Some err;
           nextFire := nextFire e |}
  end.

(** Modelled from the spec: an entry is due when it is enabled and its
    fire time has passed (4.2, Run). *)
Definition due (t : nat) (e : ScheduledTask) : bool :=
  enabled e && (nextFire e <=? t)%nat.

(** Modelled from the spec: one step of the scheduler (4.2, 5).  [None]
    means the event cannot happen in this state or the call is rejected and
    changes nothing.  A due entry whose id has an execution in flight is
    skipped: nothing is started and nothing is remembered for later.  The
    fire time of an entry is recomputed when its execution returns, from
    the instant of the return. *)
Definition step (ev : event) (s : Scheduler) : option Scheduler :=
  match ev with
  | Add id t =>
      match tasks s !! id with
      | Some _ => None
      | None => Some {| tasks := <[id := t]> (tasks s);
                        running := running s; now := now s |}
      end
  | Remove id =>
      match tasks s !! id with
      | Some _ => Some {| tasks := delete id (tasks s);
                          running := running s; now := now s |}
      | None => None
      end
  | Tick d =>
      Some {| tasks := tasks s; running := running s; now := (now s + d)%nat |}
  | Fire id =>
      match tasks s !! id with
      | Some e =>
          if due (now s) e then
            if is_running id s then Some s
            else Some {| tasks := tasks s; running := id :: running s;
                         now := now s |}
          else None
      | None => None
      end
  | Done id r =>
      if is_running id s then
        Some {| tasks := alter (settle (now s) r) id (tasks s);
                running := finish id (running s); now := now s |}
      else None
  end.

(** Modelled from the spec: the events of a history, one after the
    other. *)
Fixpoint run (evs : list event) (s : Scheduler) : option Scheduler :=
  match evs with
  | [] => Some s
  | ev :: evs' =>
      match step ev s with
      | Some s' => run evs' s'
      | None => None
      end
  end.

End Run.

(** Modelled from the spec: the scheduler as [Run] finds it, with the
    registered tasks and nothing in flight. *)
Definition start (reg : gmap string ScheduledTask) (t0 : nat) : Scheduler :=
  {| tasks := reg; running := []; now := t0 |}.

End registry.

(* ===================================================================== *)
(** ** A small installation, for the examples *)
(* ===================================================================== *)

Module sample.
Import models backup.

(** Paths and bucket names stand for the location configurations, a DSN
    for the connection configuration. *)
Abbreviation Querier := (models.Querier string string string string).
Abbreviation BackupsService :=
  (backup.BackupsService string string string string).
Abbreviation JobCall := (backup.JobCall string string string string).

Definition mysql1 : Service :=
  {| ServiceID := "svc-mysql-1"; Service_ServiceType := MySQLServiceType |}.
Definition mysql2 : Service :=
  {| ServiceID := "svc-mysql-2"; Service_ServiceType := MySQLServiceType |}.
Definition postgres1 : Service :=
  {| ServiceID := "svc-pg-1"; Service_ServiceType := PostgreSQLServiceType |}.
Definition postgres2 : Service :=
  {| ServiceID := "svc-pg-2"; Service_ServiceType := PostgreSQLServiceType |}.
Definition mongo1 : Service :=
  {| ServiceID := "svc-mongo-1"; Service_ServiceType := MongoDBServiceType |}.
Definition redis1 : Service :=
  {| ServiceID := "svc-redis-1"; Service_ServiceType := "redis" |}.

Definition loc1 : models.BackupLocation string string string :=
  {| BackupLocation_ID := "loc-1";
     PMMServerConfig := None;
     PMMClientConfig := Some "/var/backups";
     S3Config := None |}.

Definition agent1 : Agent := {| AgentID := "pmm-agent-1" |}.
Definition agent2 : Agent := {| AgentID := "pmm-agent-2" |}.
Definition agent3 : Agent := {| AgentID := "pmm-agent-3" |}.

(** A backup of the second MySQL service, taken earlier. *)
Definition weekly : Artifact :=
  {| Artifact_ID := "artifact-0"; Artifact_Name := "weekly";
     Artifact_Vendor := "mysql"; Artifact_LocationID := "loc-1";
     Artifact_ServiceID := "svc-mysql-2";
     Artifact_DataModel := PhysicalDataModel;
     Artifact_Status := SuccessBackupStatus |}.

(** The second MySQL service and the second PostgreSQL service have no
    agent. *)
Definition tables : Querier :=
  {| services := [mysql1; mysql2; postgres1; postgres2; mongo1; redis1];
     locations := [loc1];
     pmm_agents := [("svc-mysql-1", agent1); ("svc-mysql-1", agent2);
                    ("svc-pg-1", agent3); ("svc-mongo-1", agent3);
                    ("svc-redis-1", agent3)];
     db_configs := [("svc-mysql-1", "root@tcp(10.0.0.1:3306)/");
                    ("svc-mysql-2", "root@tcp(10.0.0.2:3306)/")];
     artifacts := [weekly];
     job_results := [];
     restore_history := [];
     serial := 1 |}.

Definition service : BackupsService :=
  {| db := tables; jobsService := [] |}.

(** Row ids "row-1", "row-2", ... *)
Definition row_id (n : nat) : string :=
  "row-" ++ NilEmpty.string_of_uint (Nat.to_uint n).

(** A store that never fails, and one that loses the connection at
    commit. *)
Definition healthy : StoreOp -> option error := fun _ => None.

Definition commit_fails : StoreOp -> option error := fun op =>
  match op with
  | OpCommit => Some (errors_Errorf "driver: bad connection")
  | _ => None
  end.

(** A jobs service that accepts every job, and one whose agents are not
    connected. *)
Definition accepting : JobCall -> option error := fun _ => None.

Definition disconnected : JobCall -> option error := fun c =>
  match c with
  | StartMySQLBackupJob _ a _ _ _ _
  | StartMySQLRestoreBackupJob _ a _ _ _ _ =>
      Some (status_Errorf FailedPrecondition
              ("pmm-agent with ID " ++ a ++ " is not currently connected"))
  end.

Definition nightly (serviceID : string) : StartBackupRequest :=
  {| sbr_ServiceId := serviceID; sbr_LocationId := "loc-1";
     sbr_Name := "nightly" |}.

Definition restore_weekly (serviceID : string) : RestoreBackupRequest :=
  {| rbr_ServiceId := serviceID; rbr_ArtifactId := "artifact-0" |}.

(** A schedule that fires every ten ticks, and a print task on it. *)
Definition every_ten : string -> nat -> nat := fun _ t => (t + 10)%nat.

Definition hello : registry.ScheduledTask :=
  {| registry.task_type := scheduler.ScheduledPrintTask;
     registry.task_data :=
       {| scheduler.Print := Some {| scheduler.pd_Message := "hello" |};
          scheduler.MySQLBackupTask := None;
          scheduler.MongoBackupTask := None |};
     registry.cronExpression := "*/10 * * * *";
     registry.enabled := true;
     registry.startAt := 0;
     registry.retry := 1;
     registry.retryInterval := 3;
     registry.failures := 0;
     registry.lastError := None;
     registry.nextFire := 10 |}.

(** The task is added, comes due and is started; its next fire time
    passes while it runs; then it returns. *)
Definition slow_run : list registry.event :=
  [registry.Add "task-1" hello; registry.Tick 10; registry.Fire "task-1";
   registry.Tick 15; registry.Fire "task-1"; registry.Tick 2].

End sample.

(* ===================================================================== *)
(** ** Error messages, byte slices, HTTP answers *)
(* ===================================================================== *)

(** [codes.Code.String]. *)
Definition Code_String (c : Code) : string :=
  match c with
  | OK => "OK" | Canceled => "Canceled" | Unknown => "Unknown"
  | InvalidArgument => "InvalidArgument"
  | DeadlineExceeded => "DeadlineExceeded" | NotFound => "NotFound"
  | AlreadyExists => "AlreadyExists"
  | PermissionDenied => "PermissionDenied"
  | ResourceExhausted => "ResourceExhausted"
  | FailedPrecondition => "FailedPrecondition" | Aborted => "Aborted"
  | OutOfRange => "OutOfRange" | Unimplemented => "Unimplemented"
  | Internal => "Internal" | Unavailable => "Unavailable"
  | DataLoss => "DataLoss" | Unauthenticated => "Unauthenticated"
  end.

(** The [Error()] method: the message of a pkg/errors error, and gRPC's
    rendering of a status. *)
Definition error_Error (e : error) : string :=
  match e with
  | status_Errorf c msg =>
      "rpc error: code = " ++ Code_String c ++ " desc = " ++ msg
  | errors_Errorf msg => msg
  end.

(** [errors.WithStack(err)] adds a stack trace and keeps the message; stack
    traces are not part of an error here. *)
Definition errors_WithStack (e : error) : error := e.

(** [errors.Wrap(err, message)]: an error whose message is the given one,
    a colon and the message of the cause. *)
Definition errors_Wrap (e : error) (message : string) : error :=
  errors_Errorf (message ++ ": " ++ error_Error e).

(** The line feed. *)
Definition LF : string := String (Ascii.ascii_of_nat 10) "".

(** The verb [%d] on a non-negative int. *)
Definition decimal (n : nat) : string :=
  NilEmpty.string_of_uint (Nat.to_uint n).

(** A [[]byte]: nil, or a slice with its bytes. *)
Definition byteslice : Set := option string.

(** The bytes of a slice; a nil slice has none. *)
Definition bytes_of (b : byteslice) : string :=
  match b with
  | Some s => s
  | None => ""
  end.

(** [reflect.DeepEqual] of a slice with a slice that is not nil: a nil
    slice is not deeply equal to an empty one. *)
Definition DeepEqual (b : byteslice) (other : string) : bool :=
  match b with
  | Some s => String.eqb s other
  | None => false
  end.

(** What an HTTP client call gives: an error, or a response with its
    status code and what [ioutil.ReadAll] makes of its body. *)
Inductive http_result : Type :=
| http_error (e : error)
| http_response (StatusCode : nat) (Body : result string).

(** A request of the services: the method and the elements joined to the
    path of the base URL. *)
Inductive request : Set :=
| POST (elems : list string)
| GET (elems : list string).

(* ===================================================================== *)
(** ** services/prometheus *)
(* ===================================================================== *)

Module prometheus.

(** [type Service struct]: the two paths; the base URL and the client are
    behind the answers to the requests. *)
Record Service : Set := { configPath : string; promtoolPath : string }.

(** What the service does outside the file system, in order. *)
Inductive action : Set :=
| requested (r : request)
| executed (path : string) (args : list string).

(** The machine the service runs on: the files, each with its content and
    its mode, and what the service has asked of Prometheus and of promtool
    so far. *)
Record Host : Type :=
  { files : gmap string (string * nat);
    done : list action }.

(** The operations on files that can fail. *)
Inductive OsOp : Set :=
| OpReadFile (path : string)
| OpStat (path : string)
| OpTempFile
| OpWrite (name : string) (data : string)
| OpWriteFile (path : string) (data : string).

Section Service.

(** The failures of the file system; what a failed write leaves of the
    data; the name [ioutil.TempFile] picks. *)
Variable os_fault : OsOp -> option error.
Variable torn : string -> string.
Variable temp_name : Host -> string.

(** The combined output and the error of running a program. *)
Variable exec_CombinedOutput :
  string -> list string -> Host -> string * option error.

(** The answer of Prometheus to a request. *)
Variable http : request -> Host -> http_result.

(** [checkFailedRE.FindStringSubmatch]. *)
Variable FindStringSubmatch : string -> list string.

Definition missing (op path : string) : error :=
  errors_Errorf (op ++ " " ++ path ++ ": no such file or directory").

(** [ioutil.ReadFile]. *)
Definition ReadFile (path : string) (h : Host) : result string :=
  match os_fault (OpReadFile path) with
  | Some e => inl e
  | None =>
      match files h !! path with
      | Some (content, _) => inr content
      | None => inl (missing "open" path)
      end
  end.

(** [os.Stat], for the mode. *)
Definition Stat (path : string) (h : Host) : result nat :=
  match os_fault (OpStat path) with
  | Some e => inl e
  | None =>
      match files h !! path with
      | Some (_, mode) => inr mode
      | None => inl (missing "stat" path)
      end
  end.

Definition put (path content : string) (mode : nat) (h : Host) : Host :=
  {| files := <[path := (content, mode)]> (files h); done := done h |}.

(** [ioutil.WriteFile]: the file is created with the given mode if it
    does not exist, and keeps its mode if it does. *)
Definition WriteFile (path data : string) (perm : nat) (h : Host)
  : Host * option error :=
  let mode := match files h !! path with
              | Some (_, m) => m
              | None => perm
              end in
  match os_fault (OpWriteFile path data) with
  | Some e => (put path (torn data) mode h, Some e)
  | None => (put path data mode h, None)
  end.

(** [ioutil.TempFile]: a new, empty file of mode 0600; no existing file
    is ever taken. *)
Definition TempFile (h : Host) : result (string * Host) :=
  match os_fault OpTempFile with
  | Some e => inl e
  | None =>
      let name := temp_name h in
      match files h !! name with
      | Some _ => inl (errors_Errorf ("open " ++ name ++ ": file exists"))
      | None => inr (name, put name "" 384 h)
      end
  end.

(** [f.Write] on the temporary file. *)
Definition Write (name data : string) (h : Host) : Host * option error :=
  match os_fault (OpWrite name data) with
  | Some e => (put name (torn data) 384 h, Some e)
  | None => (put name data 384 h, None)
  end.

(** [f.Close] and [os.Remove(f.Name())], errors dropped. *)
Definition Remove (name : string) (h : Host) : Host :=
  {| files := delete name (files h); done := done h |}.

Definition record (a : action) (h : Host) : Host :=
  {| files := files h; done := done h ++ [a] |}.

(** [reload]: POST to /-/reload; 200 is success without reading the body,
    anything else is an error made of the status code and the body. *)
Definition reload (h : Host) : Host * option error :=
  let r := POST ["-"; "reload"] in
  let h1 := record (requested r) h in
  match http r h with
  | http_error e => (h1, Some (errors_WithStack e))
  | http_response code body =>
      if (code =? 200)%nat then (h1, None)
      else match body with
           | inl e => (h1, Some (errors_WithStack e))
           | inr b => (h1, Some (errors_Errorf (decimal code ++ ": " ++ b)))
           end
  end.

(** The first deferred function of [saveConfigAndReload], with [restore]
    set: the old content is written back and Prometheus reloaded; both
    errors are logged and dropped. *)
Definition restore_old (svc : Service) (oldCfg : string) (mode : nat)
    (h : Host) : Host :=
  fst (reload (fst (WriteFile (configPath svc) oldCfg mode h))).

Definition saveConfigAndReload (svc : Service) (cfg : byteslice) (h : Host)
  : Host * option error :=
  match ReadFile (configPath svc) h with
  | inl e => (h, Some (errors_WithStack e))
  | inr oldCfg =>
      if DeepEqual cfg oldCfg then (h, None)
      else
        match Stat (configPath svc) h with
        | inl e => (h, Some (errors_WithStack e))
        | inr mode =>
            match TempFile h with
            | inl e => (h, Some (errors_WithStack e))
            | inr (f, h1) =>
                match Write f (bytes_of cfg) h1 with
                | (h2, Some e) => (h2, Some (errors_WithStack e))
                | (h2, None) =>
                    let args := ["check"; "config"; f] in
                    let h3 := record (executed (promtoolPath svc) args) h2 in
                    match exec_CombinedOutput (promtoolPath svc) args h2 with
                    | (b, Some e) =>
                        (Remove f h3,
                         Some (match FindStringSubmatch b with
                               | [_; m1] => status_Errorf Aborted m1
                               | _ => errors_Wrap e b
                               end))
                    | (b, None) =>
                        match WriteFile (configPath svc) (bytes_of cfg)
                                mode h3 with
                        | (h4, Some e) =>
                            (restore_old svc oldCfg mode (Remove f h4),
                             Some (errors_WithStack e))
                        | (h4, None) =>
                            match reload h4 with
                            | (h5, Some e) =>
                                (restore_old svc oldCfg mode (Remove f h5),
                                 Some e)
                            | (h5, None) => (Remove f h5, None)
                            end
                        end
                    end
                end
            end
        end
  end.

(** The inventory as [marshalConfig] reads it in its transaction, and the
    functions of the package that build scrape configurations; neither the
    models nor those functions are among the sources. *)
Context {Agent Service_ Node ScrapeConfig : Type}.

Record Inventory : Type :=
  { Begin : option error;
    SelectAllAgents : result (list Agent);
    ServicesForAgent : Agent -> result (list Service_);
    ReloadNode : Service_ -> result Node;
    Commit : option error }.

Variable ServiceType_of : Service_ -> models.ServiceType.
Variable scrapeConfigForPrometheus : ScrapeConfig.
Variable scrapeConfigForGrafana : ScrapeConfig.
Variable scrapeConfigForPMMManaged : ScrapeConfig.
Variable scrapeConfigsForMySQLdExporter :
  Node -> Service_ -> Agent -> result (list ScrapeConfig).
Variable scrapeConfigsForMongoDBExporter :
  Node -> Service_ -> Agent -> result ScrapeConfig.

(** [config.Config] with the fields [marshalConfig] fills; durations in
    seconds. *)
Record Config : Type :=
  { ScrapeInterval : nat; ScrapeTimeout : nat; EvaluationInterval : nat;
    RuleFiles : list string;
    ScrapeConfigs : list ScrapeConfig }.

Variable yaml_Marshal : Config -> result string.

(** The inner loop of [marshalConfig], over the services of one agent;
    [scs] is [cfg.ScrapeConfigs]. *)
Fixpoint services_loop (inv : Inventory) (agent : Agent)
    (services : list Service_) (scs : list ScrapeConfig)
  : result (list ScrapeConfig) :=
  match services with
  | [] => inr scs
  | service :: rest =>
      match ReloadNode inv service with
      | inl e => inl (errors_WithStack e)
      | inr node =>
          if String.eqb (ServiceType_of service) models.MySQLServiceType then
            match scrapeConfigsForMySQLdExporter node service agent with
            | inl e => inl e
            | inr scfgs => services_loop inv agent rest (scs ++ scfgs)
            end
          else if String.eqb (ServiceType_of service)
                    models.MongoDBServiceType then
            match scrapeConfigsForMongoDBExporter node service agent with
            | inl e => inl e
            | inr scfg => services_loop inv agent rest (scs ++ [scfg])
            end
          else services_loop inv agent rest scs
      end
  end.

(** The outer loop, over the agents in the order of their ids. *)
Fixpoint agents_loop (inv : Inventory) (agents : list Agent)
    (scs : list ScrapeConfig) : result (list ScrapeConfig) :=
  match agents with
  | [] => inr scs
  | agent :: rest =>
      match ServicesForAgent inv agent with
      | inl e => inl (errors_WithStack e)
      | inr services =>
          match services_loop inv agent services scs with
          | inl e => inl e
          | inr scs' => agents_loop inv rest scs'
          end
      end
  end.

Definition header : string :=
  "# Managed by pmm-managed. DO NOT EDIT." ++ LF ++ "---" ++ LF.

(** The configuration [marshalConfig] hands to [yaml.Marshal]. *)
Definition buildConfig (inv : Inventory) : result Config :=
  match Begin inv with
  | Some e => inl e
  | None =>
      match SelectAllAgents inv with
      | inl e => inl (errors_WithStack e)
      | inr agents =>
          match agents_loop inv agents
                  [scrapeConfigForPrometheus; scrapeConfigForGrafana;
                   scrapeConfigForPMMManaged] with
          | inl e => inl e
          | inr scs =>
              match Commit inv with
              | Some e => inl e
              | None =>
                  inr {| ScrapeInterval := 60; ScrapeTimeout := 10;
                         EvaluationInterval := 60;
                         RuleFiles := ["/etc/prometheus.d/*.rules.yml"];
                         ScrapeConfigs := scs |}
              end
          end
      end
  end.

Definition marshalConfig (inv : Inventory) : result byteslice :=
  match buildConfig inv with
  | inl e => inl e
  | inr cfg =>
      match yaml_Marshal cfg with
      | inl e =>
          inl (errors_Wrap e "can't marshal Prometheus configuration file")
      | inr b => inr (Some (header ++ b)%string)
      end
  end.

Definition UpdateConfiguration (svc : Service) (inv : Inventory) (h : Host)
  : Host * option error :=
  match marshalConfig inv with
  | inl e => (h, Some e)
  | inr cfg => saveConfigAndReload svc cfg h
  end.

Definition Check (svc : Service) (inv : Inventory) (h : Host)
  : Host * option error :=
  let r := GET ["version"] in
  let h1 := record (requested r) h in
  match http r h with
  | http_error e => (h1, Some e)
  | http_response code body =>
      match body with
      | inl e => (h1, Some e)
      | inr _ =>
          if (code =? 200)%nat then
            let h2 := record (executed (promtoolPath svc) ["--version"]) h1 in
            match exec_CombinedOutput (promtoolPath svc) ["--version"] h1 with
            | (b, Some e) => (h2, Some (errors_Wrap e b))
            | (_, None) => UpdateConfiguration svc inv h2
            end
          else
            (h1, Some (errors_Errorf ("expected 200, got " ++ decimal code)))
      end
  end.

End Service.

Arguments Inventory : clear implicits.
Arguments Config : clear implicits.

End prometheus.

(* ===================================================================== *)
(** ** services/vmalert *)
(* ===================================================================== *)

Module vmalert.

(** [type Service struct]: what the methods below reach, the number of
    tokens in the channel [sema], which holds at most one, and the requests
    made to VMAlert so far.  Durations (the batching delay, the timeouts)
    and log lines are left out. *)
Record Service : Set :=
  { sema : nat;
    sent : list request }.

Section Service.

(** Whether [http.NewRequestWithContext] refuses to build the request,
    and what VMAlert answers. *)
Variable NewRequest_error : request -> option error.
Variable http : request -> Service -> http_result.

Definition note (r : request) (svc : Service) : Service :=
  {| sema := sema svc; sent := sent svc ++ [r] |}.

(** [IsReady]: GET /health. *)
Definition IsReady (svc : Service) : Service * option error :=
  let req := GET ["health"] in
  match NewRequest_error req with
  | Some e => (svc, Some (errors_WithStack e))
  | None =>
      match http req svc with
      | http_error e => (note req svc, Some (errors_WithStack e))
      | http_response code body =>
          match body with
          | inl e => (note req svc, Some e)
          | inr _ =>
              if (code =? 200)%nat then (note req svc, None)
              else (note req svc,
                    Some (errors_Errorf
                            ("expected 200, got " ++ decimal code)))
          end
      end
  end.

(** [reload]: GET /-/reload. *)
Definition reload (svc : Service) : Service * option error :=
  let req := GET ["-"; "reload"] in
  match NewRequest_error req with
  | Some e => (svc, Some (errors_WithStack e))
  | None =>
      match http req svc with
      | http_error e => (note req svc, Some (errors_WithStack e))
      | http_response code body =>
          match body with
          | inl e => (note req svc, Some e)
          | inr _ =>
              if (code =? 200)%nat then (note req svc, None)
              else (note req svc,
                    Some (errors_Errorf
                            ("expected 200, got " ++ decimal code)))
          end
      end
  end.

Definition updateConfiguration (svc : Service) : Service * option error :=
  match reload svc with
  | (svc', Some e) => (svc', Some (errors_WithStack e))
  | (svc', None) => (svc', None)
  end.

(** [RequestConfigurationUpdate]: the send on [sema] goes through when
    the channel, of capacity one, is empty, and then the configuration is
    updated at once, an error being logged and dropped; otherwise the
    [default] arm does nothing. *)
Definition RequestConfigurationUpdate (svc : Service) : Service :=
  if (sema svc <? 1)%nat then
    fst (updateConfiguration {| sema := S (sema svc); sent := sent svc |})
  else svc.

(** What the [select] of [Run] wakes up on: the context is done, or a
    token is received; in the second case, whether the context is done by
    the end of the batching delay. *)
Inductive wake : Set :=
| ctx_Done
| token (cancelled : bool).

(** One pass through the loop of [Run].  [None]: the [select] cannot take
    that arm (no token to receive).  Otherwise the service after the pass,
    and whether the loop goes on ([false]: [Run] has returned). *)
Definition Run_pass (w : wake) (svc : Service) : option (Service * bool) :=
  match w with
  | ctx_Done => Some (svc, false)
  | token cancelled =>
      match sema svc with
      | 0 => None
      | S n =>
          let svc1 := {| sema := n; sent := sent svc |} in
          if cancelled then Some (svc1, false)
          else
            match updateConfiguration svc1 with
            | (svc2, Some _) => Some (RequestConfigurationUpdate svc2, true)
            | (svc2, None) => Some (svc2, true)
            end
      end
  end.

(** What happens to the service: some caller requests an update, or the
    loop of [Run] makes a pass. *)
Inductive event : Set :=
| request_update
| pass (w : wake).

(** A history of events, from a service whose loop is running; the loop
    makes no pass after [Run] has returned. *)
Fixpoint history (evs : list event) (svc : Service) (running : bool)
  : option (Service * bool) :=
  match evs with
  | [] => Some (svc, running)
  | request_update :: evs' =>
      history evs' (RequestConfigurationUpdate svc) running
  | pass w :: evs' =>
      if running then
        match Run_pass w svc with
        | Some (svc', running') => history evs' svc' running'
        | None => None
        end
      else None
  end.

End Service.

End vmalert.

(* ===================================================================== *)
(** ** The generated client of Node/Register *)
(* ===================================================================== *)

Module node.

(** What [consumer.Consume] reports besides filling the payload. *)
Inductive consume_error : Type :=
| io_EOF
| consume_failed (e : error).

(** What [ReadResponse] returns: a [RegisterNodeOK] or a
    [RegisterNodeDefault] as the result, or as the error a
    [RegisterNodeDefault] or the error of the consumer. *)
Inductive read {OKBody DefaultBody : Type} : Type :=
| result_OK (payload : OKBody)
| result_Default (code : Z) (payload : DefaultBody)
| error_Default (code : Z) (payload : DefaultBody)
| error_consumer (e : error).

Arguments read : clear implicits.

Section Reader.

Context {Body OKBody DefaultBody : Type}.

(** The consumer, on a body: the payload as it leaves it, and its
    error. *)
Variable Consume_OK : Body -> OKBody * option consume_error.
Variable Consume_Default : Body -> DefaultBody * option consume_error.

(** [RegisterNodeReader.ReadResponse], with the two [readResponse]
    methods in place: an error of the consumer other than [io.EOF] is
    returned, [io.EOF] is not an error. *)
Definition ReadResponse (code : Z) (body : Body) : read OKBody DefaultBody :=
  if (code =? 200)%Z then
    match Consume_OK body with
    | (_, Some (consume_failed e)) => error_consumer e
    | (payload, _) => result_OK payload
    end
  else
    match Consume_Default body with
    | (_, Some (consume_failed e)) => error_consumer e
    | (payload, _) =>
        if (Z.quot code 100 =? 2)%Z then result_Default code payload
        else error_Default code payload
    end.

End Reader.

(** [registerNodeBodyTypeNodeTypePropEnum], as [init] fills it. *)
Definition registerNodeBodyTypeNodeTypePropEnum : list string :=
  ["NODE_TYPE_INVALID"; "GENERIC_NODE"; "CONTAINER_NODE"; "REMOTE_NODE";
   "REMOTE_RDS_NODE"].

(** The errors of go-openapi the body can produce: a value outside an
    enumeration, and the composite of the errors of the fields. *)
Inductive Validation : Set :=
| EnumFail (name in_ value : string) (values : list string).

Inductive CompositeError : Set :=
| CompositeValidationError (errs : list Validation).

(** [validate.EnumCase] with case sensitivity on: the value has to be
    one of the listed ones as it stands. *)
Definition EnumCase (path location value : string) (enum : list string)
  : option Validation :=
  if existsb (String.eqb value) enum then None
  else Some (EnumFail path location value enum).

(** [RegisterNodeBody], by its one validated field: a pointer to the node
    type. *)
Record RegisterNodeBody : Set := { NodeType : option string }.

Definition validateNodeTypeEnum (path location value : string)
  : option Validation :=
  EnumCase path location value registerNodeBodyTypeNodeTypePropEnum.

(** [swag.IsZero] holds of a nil pointer and of no other pointer. *)
Definition validateNodeType (o : RegisterNodeBody) : option Validation :=
  match NodeType o with
  | None => None
  | Some value =>
      validateNodeTypeEnum ("body" ++ "." ++ "node_type") "body" value
  end.

Definition Validate (o : RegisterNodeBody) : option CompositeError :=
  let res := match validateNodeType o with
             | Some err => [err]
             | None => []
             end in
  if (0 <? length res)%nat then Some (CompositeValidationError res)
  else None.

End node.

(* ===================================================================== *)
(** ** handlers: the connection of an agent *)
(* ===================================================================== *)

Module handlers.

Section Connect.

(** The messages of the agent API are declared outside the sources: a
    payload is nil, an auth request, a ping answer with its time, or
    something else; the pointers in them may be nil; [%T] prints the type
    of a payload. *)
Context {AuthRequest Timestamp Time : Type}.

Record PingResponse : Type := { CurrentTime : option Timestamp }.

Inductive AgentPayload : Type :=
| payload_nil
| payload_Auth (Auth : option AuthRequest)
| payload_Ping (Ping : option PingResponse)
| payload_other (type_name : string).

Variable type_name_of : AgentPayload -> string.

(** [ptypes.Timestamp]. *)
Variable ptypes_Timestamp : option Timestamp -> result Time.

(** What the server writes on the stream. *)
Inductive ServerPayload : Set :=
| server_Auth
| server_Ping.

(** The stream as the handler uses it: what [Recv] gives first, whether
    [Send] of the auth response fails, and then, at each wake of the
    [select], either the context is done or the ticker fires and the
    agent answers the ping. *)
Inductive tick : Type :=
| stream_Done
| ticked (answer : AgentPayload).

(** How a call of [Connect] stands: returned nil or an error, panicked,
    or still in its loop with the ticks given used up. *)
Inductive ending : Type :=
| returned (err : option error)
| panicked
| looping.

(** The loop of [Connect]; [out] is what has been sent so far.  An
    answer that is not a ping, or a ping without its response, makes the
    type assertion or the field access panic. *)
Fixpoint pings (ticks : list tick) (out : list ServerPayload)
  : list ServerPayload * ending :=
  match ticks with
  | [] => (out, looping)
  | stream_Done :: _ => (out, returned None)
  | ticked answer :: rest =>
      let out1 := out ++ [server_Ping] in
      match answer with
      | payload_Ping (Some ping) =>
          match ptypes_Timestamp (CurrentTime ping) with
          | inl e => (out1, returned (Some e))
          | inr _ => pings rest out1
          end
      | _ => (out1, panicked)
      end
  end.

Definition Connect (first : result AgentPayload) (send_error : option error)
    (ticks : list tick) : list ServerPayload * ending :=
  match first with
  | inl e => ([], returned (Some e))
  | inr payload =>
      match payload with
      | payload_Auth (Some _) =>
          match send_error with
          | Some e => ([], returned (Some e))
          | None => pings ticks [server_Auth]
          end
      | _ =>
          ([], returned
                 (Some (errors_Errorf
                          ("Expected AuthRequest, got "
                           ++ type_name_of payload ++ "."))))
      end
  end.

End Connect.

Arguments PingResponse : clear implicits.
Arguments AgentPayload : clear implicits.
Arguments tick : clear implicits.

End handlers.

(* ===================================================================== *)
(** ** A small monitoring host, for the examples *)
(* ===================================================================== *)

Module sample_host.

Definition prom : prometheus.Service :=
  {| prometheus.configPath := "/etc/prometheus.yml";
     prometheus.promtoolPath := "/usr/bin/promtool" |}.

(** The configuration file holds an old configuration under mode 0644. *)
Definition host : prometheus.Host :=
  {| prometheus.files := {[ "/etc/prometheus.yml" := ("old", 420) ]};
     prometheus.done := [] |}.

Definition no_fault : prometheus.OsOp -> option error := fun _ => None.
Definition torn : string -> string := fun _ => "".
Definition temp_name : prometheus.Host -> string :=
  fun _ => "/tmp/pmm-managed-config-1".

(** promtool accepts everything but a file that holds "bad". *)
Definition promtool
  : string -> list string -> prometheus.Host -> string * option error :=
  fun _ args h =>
    match args with
    | ["check"; "config"; f] =>
        match prometheus.files h !! f with
        | Some ("bad", _) =>
            ("FAILED: parsing YAML file", Some (errors_Errorf "exit status 1"))
        | _ => ("SUCCESS", None)
        end
    | _ => ("promtool, version 2", None)
    end.

(** Prometheus answers 200, except to a reload while the configuration
    file holds "refused". *)
Definition server : request -> prometheus.Host -> http_result :=
  fun r h =>
    match r, prometheus.files h !! "/etc/prometheus.yml" with
    | POST _, Some ("refused", _) =>
        http_response 500 (inr "couldn't load configuration")
    | _, _ => http_response 200 (inr "ok")
    end.

Definition no_match : string -> list string := fun _ => [].

(** An inventory of two agents: the first serves a MySQL service and a
    PostgreSQL one, the second a MongoDB service. *)
Definition inventory : prometheus.Inventory string (string * string) string :=
  {| prometheus.Begin := None;
     prometheus.SelectAllAgents := inr ["agent-1"; "agent-2"];
     prometheus.ServicesForAgent := fun agent =>
       if String.eqb agent "agent-1"
       then inr [("db-1", "mysql"); ("db-2", "postgresql")]
       else inr [("db-3", "mongodb")];
     prometheus.ReloadNode := fun _ => inr "node-1";
     prometheus.Commit := None |}.

Definition mysqld_exporter
  : string -> string * string -> string -> result (list string) :=
  fun _ service _ =>
    inr [(fst service ++ "-hr")%string; (fst service ++ "-lr")%string].

Definition mongodb_exporter
  : string -> string * string -> string -> result string :=
  fun _ service _ => inr (fst service ++ "-mongo")%string.

Definition yaml : prometheus.Config string -> result string :=
  fun cfg => inr (String.concat "," (prometheus.ScrapeConfigs cfg)).

(** VMAlert: nothing pending, nothing sent; a VMAlert that is down. *)
Definition alert : vmalert.Service :=
  {| vmalert.sema := 0; vmalert.sent := [] |}.

Definition buildable : request -> option error := fun _ => None.

Definition down : request -> vmalert.Service -> http_result :=
  fun _ _ => http_error (errors_Errorf "connection refused").

End sample_host.

(* ===================================================================== *)
(** * Properties of the tasks *)
(* ===================================================================== *)

Section TaskProperties.

Import scheduler.

Context {backupsLogicService : Type}.

Implicit Types (t : Task backupsLogicService) (i j : string).

Lemma ID_SetID t i : ID (SetID i t) = i.
Proof. destruct t; reflexivity. Qed.

Lemma Data_SetID t i : Data (SetID i t) = Data t.
Proof. destruct t; reflexivity. Qed.

Lemma Type_SetID t i : Type_ (SetID i t) = Type_ t.
Proof. destruct t; reflexivity. Qed.

Lemma call_keeps_task r t : fst (call r t) = t.
Proof. destruct r; reflexivity. Qed.

Lemma calls_keep_task rs t : fst (calls rs t) = t.
Proof.
  revert t. induction rs as [|r rs IH]; intros t; [reflexivity|].
  cbn [calls]. pose proof (call_keeps_task r t) as Hc.
  destruct (call r t) as [t1 o]; cbn in Hc; subst t1.
  specialize (IH t). destruct (calls rs t) as [t2 os]; exact IH.
Qed.

(** C6, as the code has it: [SetID] is an unconditional assignment.  On a
    task whose id has been set, a second [SetID] returns normally and the
    task then carries the second id; type and data are untouched. *)
Theorem SetID_last_write_wins t i j :
  ID (SetID j (SetID i t)) = j
  /\ Type_ (SetID j (SetID i t)) = Type_ t
  /\ Data (SetID j (SetID i t)) = Data t.
Proof.
  rewrite ID_SetID, !Type_SetID, !Data_SetID. repeat split.
Qed.

(** C7: [Data] leaves the task as it was and returns exactly the
    parameters the task was built with: the message of a print task; the
    service id, location id, name and description of a backup task.  The
    id set later is not part of it.  Rebuilding a task from its id, type
    tag and data through the registry always succeeds and gives a task
    with the same id, the same type tag and the same data, so serialising,
    rebuilding and serialising again returns the first snapshot. *)
Theorem Data_is_construction_snapshot :
  (forall m,
     Data (NewPrintTask (backupsLogicService := backupsLogicService) m)
     = {| Print := Some {| pd_Message := m |};
          MySQLBackupTask := None; MongoBackupTask := None |})
  /\ (forall (svc : backupsLogicService) s l n d,
        Data (NewMySQLBackupTask svc s l n d)
        = {| Print := None;
             MySQLBackupTask :=
               Some {| my_ServiceID := s; my_LocationID := l;
                       my_Name := n; my_Description := d |};
             MongoBackupTask := None |})
  /\ (forall (svc : backupsLogicService) s l n d,
        Data (NewMongoBackupTask svc s l n d)
        = {| Print := None; MySQLBackupTask := None;
             MongoBackupTask :=
               Some {| mg_ServiceID := s; mg_LocationID := l;
                       mg_Name := n; mg_Description := d |} |})
  /\ (forall t, call CallData t = (t, GotData (Data t)))
  /\ (forall t i, Data (SetID i t) = Data t)
  /\ (forall t (svc : backupsLogicService),
        exists t', reconstruct svc (ID t) (Type_ t) (Data t) = Some t'
                   /\ ID t' = ID t
                   /\ Type_ t' = Type_ t
                   /\ Data t' = Data t).
Proof.
  repeat split; try reflexivity.
  - apply Data_SetID.
  - destruct t as [[i] m|[i] b s l n d|[i] b s l n d]; cbn;
      eexists; repeat split.
Qed.

(** C8: after [SetID i], any finite sequence of [Data()] and [Type()]
    calls leaves [ID()] equal to [i]. *)
Theorem ID_stable_under_Data_and_Type t i (rs : list reading) :
  ID (fst (calls rs (SetID i t))) = i.
Proof. rewrite calls_keep_task. apply ID_SetID. Qed.

End TaskProperties.

(** C6, as stated, fails: a print task is given the id "first", then
    [SetID] is called again with "second".  The second call goes through
    and the first id is gone. *)
Lemma SetID_twice_overwrites :
  let t1 := scheduler.SetID "first"
              (scheduler.NewPrintTask (backupsLogicService := unit) "hello") in
  let t2 := scheduler.SetID "second" t1 in
  scheduler.ID t1 = "first"
  /\ scheduler.ID t2 = "second"
  /\ scheduler.ID t2 <> scheduler.ID t1.
Proof. cbn. repeat split. discriminate. Qed.

(* ===================================================================== *)
(** * Properties of the backup service *)
(* ===================================================================== *)

Section BackupProperties.

Import models backup.

Context {PMMServerLocationConfig PMMClientLocationConfig
         S3LocationConfig DBConfig : Type}.

Local Abbreviation Querier :=
  (models.Querier PMMServerLocationConfig PMMClientLocationConfig
     S3LocationConfig DBConfig).
Local Abbreviation BackupsService :=
  (backup.BackupsService PMMServerLocationConfig PMMClientLocationConfig
     S3LocationConfig DBConfig).
Local Abbreviation JobCall :=
  (backup.JobCall PMMServerLocationConfig PMMClientLocationConfig
     S3LocationConfig DBConfig).

Variable fault : StoreOp -> option error.
Variable new_id : nat -> string.
Variable jobs_answer : JobCall -> option error.

Implicit Types (q : Querier) (s : BackupsService) (e : error).

Ltac tx_unfold :=
  unfold mbind, mret, tx_bind, tx_ret, tx_read, tx_fail in *.

(** *** The store *)

Lemma InTransactionContext_failure {A} q (f : tx Querier A) q' e :
  InTransactionContext fault q f = (q', inl e) -> q' = q.
Proof.
  unfold InTransactionContext.
  destruct (fault OpBegin); [congruence|].
  destruct (f q) as [e'|[a q1]]; [congruence|].
  destruct (fault OpCommit); congruence.
Qed.

Lemma InTransactionContext_commit {A} q (f : tx Querier A) q' a :
  InTransactionContext fault q f = (q', inr a) ->
  fault OpBegin = None /\ f q = inr (a, q') /\ fault OpCommit = None.
Proof.
  unfold InTransactionContext.
  destruct (fault OpBegin); [congruence|].
  destruct (f q) as [e'|[a1 q1]]; [congruence|].
  destruct (fault OpCommit); [congruence|].
  intros [= <- <-]. auto.
Qed.

Lemma InTransactionContext_body_failure {A} q (f : tx Querier A) e :
  fault OpBegin = None -> f q = inl e ->
  InTransactionContext fault q f = (q, inl e).
Proof. intros Hb Hf. unfold InTransactionContext. now rewrite Hb, Hf. Qed.

Lemma FindDBConfigForService_frame q q' id :
  db_configs q = db_configs q' ->
  FindDBConfigForService fault id q = FindDBConfigForService fault id q'.
Proof.
  intros H. unfold FindDBConfigForService, guarded. now rewrite H.
Qed.

Lemma FindPMMAgentsForService_frame q q' id :
  pmm_agents q = pmm_agents q' ->
  FindPMMAgentsForService fault id q = FindPMMAgentsForService fault id q'.
Proof.
  intros H. unfold FindPMMAgentsForService, guarded. now rewrite H.
Qed.

(** *** StartBackup *)

(** A transaction of [StartBackup] that goes through was for a MySQL
    service. *)
Lemma StartBackup_tx_MySQL req q svc location artifact job config q' :
  StartBackup_tx fault new_id req q
  = inr (svc, location, artifact, job, config, q') ->
  Service_ServiceType svc = MySQLServiceType.
Proof.
  unfold StartBackup_tx. tx_unfold.
  destruct (FindServiceByID fault (sbr_ServiceId req) q) as [?|svc0];
    [discriminate|].
  destruct (FindBackupLocationByID fault (sbr_LocationId req) q) as [?|loc0];
    [discriminate|].
  destruct (String.eqb (Service_ServiceType svc0) MySQLServiceType) eqn:Hty.
  - intros H. apply String.eqb_eq in Hty.
    destruct (CreateArtifact _ _ _ _) as [?|[a q1]]; [discriminate|].
    destruct (prepareBackupJob _ _ _ _ _ _) as [?|[[j c] q2]]; [discriminate|].
    injection H as <- _ _ _ _ _. exact Hty.
  - destruct (unimplemented_service _); discriminate.
Qed.

(** The transaction of [StartBackup] rejects a service that is not MySQL
    with the error of the switch. *)
Lemma StartBackup_tx_rejects_type req q svc location :
  FindServiceByID fault (sbr_ServiceId req) q = inr svc ->
  FindBackupLocationByID fault (sbr_LocationId req) q = inr location ->
  Service_ServiceType svc <> MySQLServiceType ->
  StartBackup_tx fault new_id req q
  = inl (if unimplemented_service (Service_ServiceType svc)
         then unimplemented_error (Service_ServiceType svc)
         else unknown_error (Service_ServiceType svc)).
Proof.
  intros Hs Hl Hty. unfold StartBackup_tx. tx_unfold.
  rewrite Hs, Hl.
  destruct (String.eqb_spec (Service_ServiceType svc) MySQLServiceType);
    [contradiction|].
  destruct (unimplemented_service _); reflexivity.
Qed.

(** C3: a [StartBackup] call whose transaction fails, whatever the cause
    (service or location not found, unsupported or unknown service type, no
    DB config, no agent, any failure of the store, the commit included),
    returns the error of the transaction and leaves the state exactly as it
    was: no Artifact row, no JobResult row, no call to the jobs service.
    When the service and the location were found and the service is not a
    MySQL one, the error is the Unimplemented status for the five listed
    types and the Unknown status for any other type. *)
Theorem StartBackup_failed_tx_persists_nothing req s e :
  snd (InTransactionContext fault (db s) (StartBackup_tx fault new_id req))
  = inl e ->
  StartBackup fault new_id jobs_answer req s = (s, inl e)
  /\ (forall svc location,
        fault OpBegin = None ->
        FindServiceByID fault (sbr_ServiceId req) (db s) = inr svc ->
        FindBackupLocationByID fault (sbr_LocationId req) (db s)
        = inr location ->
        Service_ServiceType svc <> MySQLServiceType ->
        e = status_Errorf
              (if unimplemented_service (Service_ServiceType svc)
               then Unimplemented else Unknown)
              ((if unimplemented_service (Service_ServiceType svc)
                then "unimplemented service: " else "unknown service: ")
               ++ Service_ServiceType svc)).
Proof.
  intros H. split.
  - unfold StartBackup.
    destruct (InTransactionContext _ _ _) as [q' r] eqn:Htx.
    cbn in H. subst r.
    apply InTransactionContext_failure in Htx. subst q'.
    destruct s; reflexivity.
  - intros svc location Hb Hs Hl Hty.
    pose proof (StartBackup_tx_rejects_type req (db s) svc location Hs Hl Hty)
      as Hrej.
    rewrite (InTransactionContext_body_failure _ _ _ Hb Hrej) in H.
    cbn in H. injection H as <-.
    destruct (unimplemented_service _); reflexivity.
Qed.

Lemma prepareBackupJob_ok svc artifactID jobType q config agent others :
  FindDBConfigForService fault (ServiceID svc) q = inr config ->
  FindPMMAgentsForService fault (ServiceID svc) q = inr (agent :: others) ->
  fault (OpCreateJobResult (AgentID agent) jobType
           {| MySQLBackup := Some {| ArtifactID := artifactID |};
              MySQLRestoreBackup := None |}) = None ->
  let job := {| JobResult_ID := new_id (serial q);
                PMMAgentID := AgentID agent;
                JobResult_Type := jobType;
                JobResult_Data :=
                  {| MySQLBackup := Some {| ArtifactID := artifactID |};
                     MySQLRestoreBackup := None |} |} in
  prepareBackupJob fault new_id svc artifactID jobType q
  = inr (job, config, insert_job_result job q).
Proof.
  intros Hc Ha Hf. unfold prepareBackupJob. tx_unfold.
  rewrite Hc, Ha. unfold CreateJobResult. now rewrite Hf.
Qed.

Lemma prepareBackupJob_no_agent svc artifactID jobType q config :
  FindDBConfigForService fault (ServiceID svc) q = inr config ->
  FindPMMAgentsForService fault (ServiceID svc) q = inr [] ->
  prepareBackupJob fault new_id svc artifactID jobType q
  = inl (errors_Errorf "pmmAgent not found for service").
Proof.
  intros Hc Ha. unfold prepareBackupJob. tx_unfold. now rewrite Hc, Ha.
Qed.

(** The transaction of [StartBackup] up to the call of [prepareBackupJob],
    for a MySQL service. *)
Lemma StartBackup_tx_MySQL_prefix req q svc location :
  FindServiceByID fault (sbr_ServiceId req) q = inr svc ->
  Service_ServiceType svc = MySQLServiceType ->
  FindBackupLocationByID fault (sbr_LocationId req) q = inr location ->
  fault (OpCreateArtifact
           {| cap_Name := sbr_Name req;
              cap_Vendor := Service_ServiceType svc;
              cap_LocationID := BackupLocation_ID location;
              cap_ServiceID := ServiceID svc;
              cap_DataModel := PhysicalDataModel;
              cap_Status := PendingBackupStatus |}) = None ->
  let artifact := {| Artifact_ID := new_id (serial q);
                     Artifact_Name := sbr_Name req;
                     Artifact_Vendor := Service_ServiceType svc;
                     Artifact_LocationID := BackupLocation_ID location;
                     Artifact_ServiceID := ServiceID svc;
                     Artifact_DataModel := PhysicalDataModel;
                     Artifact_Status := PendingBackupStatus |} in
  StartBackup_tx fault new_id req q
  = match prepareBackupJob fault new_id svc (new_id (serial q))
            MySQLBackupJob (insert_artifact artifact q) with
    | inl e => inl e
    | inr (job, config, q') =>
        inr (svc, location, artifact, job, config, q')
    end.
Proof.
  intros Hs Hty Hl Hf artifact. unfold StartBackup_tx. tx_unfold.
  rewrite Hs, Hl.
  replace (String.eqb (Service_ServiceType svc) MySQLServiceType) with true
    by (symmetry; now apply String.eqb_eq).
  unfold CreateArtifact. rewrite Hf. cbn -[prepareBackupJob].
  fold artifact.
  destruct (prepareBackupJob _ _ _ _ _ _) as [e|[[job config] q']];
    reflexivity.
Qed.

(** C2: a [StartBackup] call on a MySQL service whose service, location,
    DB config and agents resolve (at least one agent), with the store
    accepting the two inserts and the commit and the jobs service accepting
    the job, returns the id of the Artifact it created, which is not empty
    when the source of ids gives no empty id.  Exactly one Artifact row is
    added, pending, of vendor "mysql"; exactly one JobResult row is added,
    tagged with that Artifact's id and assigned to the first agent found;
    the jobs service receives exactly one call, with the job id, the agent
    id, the request's name, the DB config and the three configurations of
    the location. *)
Theorem StartBackup_MySQL_success req s svc location config agent others :
  fault OpBegin = None ->
  FindServiceByID fault (sbr_ServiceId req) (db s) = inr svc ->
  Service_ServiceType svc = MySQLServiceType ->
  FindBackupLocationByID fault (sbr_LocationId req) (db s) = inr location ->
  FindDBConfigForService fault (ServiceID svc) (db s) = inr config ->
  FindPMMAgentsForService fault (ServiceID svc) (db s)
  = inr (agent :: others) ->
  fault (OpCreateArtifact
           {| cap_Name := sbr_Name req;
              cap_Vendor := Service_ServiceType svc;
              cap_LocationID := BackupLocation_ID location;
              cap_ServiceID := ServiceID svc;
              cap_DataModel := PhysicalDataModel;
              cap_Status := PendingBackupStatus |}) = None ->
  fault (OpCreateJobResult (AgentID agent) MySQLBackupJob
           {| MySQLBackup :=
                Some {| ArtifactID := new_id (serial (db s)) |};
              MySQLRestoreBackup := None |}) = None ->
  fault OpCommit = None ->
  new_id (serial (db s)) <> "" ->
  jobs_answer
    (StartMySQLBackupJob (new_id (S (serial (db s)))) (AgentID agent) 0
       (sbr_Name req) config (locationConfig_of location)) = None ->
  exists s' artifact job,
    StartBackup fault new_id jobs_answer req s
    = (s', inr {| ArtifactId := Artifact_ID artifact |})
    /\ Artifact_ID artifact <> ""
    /\ artifacts (db s') = artifacts (db s) ++ [artifact]
    /\ Artifact_Status artifact = PendingBackupStatus
    /\ Artifact_Vendor artifact = "mysql"
    /\ Artifact_Name artifact = sbr_Name req
    /\ Artifact_ServiceID artifact = ServiceID svc
    /\ Artifact_LocationID artifact = BackupLocation_ID location
    /\ job_results (db s') = job_results (db s) ++ [job]
    /\ JobResult_Data job
       = {| MySQLBackup := Some {| ArtifactID := Artifact_ID artifact |};
            MySQLRestoreBackup := None |}
    /\ JobResult_Type job = MySQLBackupJob
    /\ PMMAgentID job = AgentID agent
    /\ restore_history (db s') = restore_history (db s)
    /\ jobsService s'
       = jobsService s
         ++ [StartMySQLBackupJob (JobResult_ID job) (AgentID agent) 0
               (sbr_Name req) config
               {| blc_PMMServerConfig := PMMServerConfig location;
                  blc_PMMClientConfig := PMMClientConfig location;
                  blc_S3Config := S3Config location |}].
Proof.
  intros Hb Hs Hty Hl Hc Ha Hfa Hfj Hcm Hid Hjobs.
  pose proof (StartBackup_tx_MySQL_prefix req (db s) svc location
                Hs Hty Hl Hfa) as Htx. cbn zeta in Htx.
  rewrite (prepareBackupJob_ok svc _ MySQLBackupJob _ config agent others)
    in Htx;
    [ | rewrite <- Hc; now apply FindDBConfigForService_frame
      | rewrite <- Ha; now apply FindPMMAgentsForService_frame
      | exact Hfj ].
  unfold StartBackup, InTransactionContext.
  rewrite Hb, Htx, Hcm.
  replace (String.eqb (Service_ServiceType svc) MySQLServiceType) with true
    by (symmetry; now apply String.eqb_eq).
  unfold send. cbn [db jobsService JobResult_ID PMMAgentID serial
                    insert_artifact].
  rewrite Hjobs.
  do 3 eexists. split; [reflexivity|].
  cbn. rewrite Hty. repeat split; try reflexivity. exact Hid.
Qed.

(** What a transaction of [StartBackup] that goes through has written. *)
Lemma StartBackup_tx_rows req q svc location artifact job config q' :
  StartBackup_tx fault new_id req q
  = inr (svc, location, artifact, job, config, q') ->
  artifacts q' = artifacts q ++ [artifact]
  /\ job_results q' = job_results q ++ [job]
  /\ restore_history q' = restore_history q.
Proof.
  unfold StartBackup_tx, prepareBackupJob. tx_unfold.
  destruct (FindServiceByID fault (sbr_ServiceId req) q) as [?|svc0];
    [discriminate|].
  destruct (FindBackupLocationByID fault (sbr_LocationId req) q) as [?|loc0];
    [discriminate|].
  destruct (String.eqb (Service_ServiceType svc0) MySQLServiceType);
    [|destruct (unimplemented_service _); discriminate].
  unfold CreateArtifact, CreateJobResult.
  destruct (fault (OpCreateArtifact _)); [discriminate|].
  destruct (FindDBConfigForService _ _ _) as [?|cfg0]; [discriminate|].
  destruct (FindPMMAgentsForService _ _ _) as [?|[|a0 rest]];
    [discriminate|discriminate|].
  destruct (fault (OpCreateJobResult _ _ _)); [discriminate|].
  intros [= <- <- <- <- <- <-]. cbn. auto.
Qed.

(** C4, as the code has it: when the service has no agent, [StartBackup]
    on a MySQL service whose other lookups and whose Artifact insert go
    through fails with the [errors.Errorf] error "pmmAgent not found for
    service" and leaves the state as it was.  The error names the cause in
    its message only: it carries no status, and [status.Code] reads it as
    Unknown. *)
Theorem StartBackup_no_agent_error req s svc location config :
  fault OpBegin = None ->
  FindServiceByID fault (sbr_ServiceId req) (db s) = inr svc ->
  Service_ServiceType svc = MySQLServiceType ->
  FindBackupLocationByID fault (sbr_LocationId req) (db s) = inr location ->
  fault (OpCreateArtifact
           {| cap_Name := sbr_Name req;
              cap_Vendor := Service_ServiceType svc;
              cap_LocationID := BackupLocation_ID location;
              cap_ServiceID := ServiceID svc;
              cap_DataModel := PhysicalDataModel;
              cap_Status := PendingBackupStatus |}) = None ->
  FindDBConfigForService fault (ServiceID svc) (db s) = inr config ->
  FindPMMAgentsForService fault (ServiceID svc) (db s) = inr [] ->
  exists e,
    StartBackup fault new_id jobs_answer req s = (s, inl e)
    /\ e = errors_Errorf "pmmAgent not found for service"
    /\ status_FromError e = None
    /\ status_Code e = Unknown.
Proof.
  intros Hb Hs Hty Hl Hfa Hc Ha.
  pose proof (StartBackup_tx_MySQL_prefix req (db s) svc location
                Hs Hty Hl Hfa) as Htx. cbn zeta in Htx.
  rewrite (prepareBackupJob_no_agent svc _ MySQLBackupJob _ config) in Htx;
    [ | rewrite <- Hc; now apply FindDBConfigForService_frame
      | rewrite <- Ha; now apply FindPMMAgentsForService_frame ].
  eexists. split; [|repeat split].
  unfold StartBackup.
  rewrite (InTransactionContext_body_failure _ _ _ Hb Htx).
  destruct s; reflexivity.
Qed.

(** *** RestoreBackup *)

Lemma prepareRestoreJob_ok serviceID artifactID q svc artifact location
    agent others :
  FindServiceByID fault serviceID q = inr svc ->
  FindArtifactByID fault artifactID q = inr artifact ->
  FindBackupLocationByID fault (Artifact_LocationID artifact) q
  = inr location ->
  FindPMMAgentsForService fault serviceID q = inr (agent :: others) ->
  prepareRestoreJob fault serviceID artifactID q
  = inr ({| prj_AgentID := AgentID agent;
            prj_ArtifactName := Artifact_Name artifact;
            prj_Location := location;
            prj_ServiceType := Service_ServiceType svc |}, q).
Proof.
  intros Hs Har Hl Hag. unfold prepareRestoreJob. tx_unfold.
  now rewrite Hs, Har, Hl, Hag.
Qed.

(** [prepareRestoreJob] only reads. *)
Lemma prepareRestoreJob_reads serviceID artifactID q params q' :
  prepareRestoreJob fault serviceID artifactID q = inr (params, q') ->
  q' = q.
Proof.
  unfold prepareRestoreJob. tx_unfold.
  destruct (FindServiceByID _ _ _); [discriminate|].
  destruct (FindArtifactByID _ _ _); [discriminate|].
  destruct (FindBackupLocationByID _ _ _); [discriminate|].
  destruct (FindPMMAgentsForService _ _ _) as [?|[|a0 rest]];
    [discriminate|discriminate|].
  now intros [= _ <-].
Qed.

(** What a transaction of [RestoreBackup] that goes through has written. *)
Lemma RestoreBackup_tx_rows req q params jobID restoreID q' :
  RestoreBackup_tx fault new_id req q = inr (params, jobID, restoreID, q') ->
  exists item job,
    restore_history q' = restore_history q ++ [item]
    /\ RestoreHistoryItem_ID item = restoreID
    /\ job_results q' = job_results q ++ [job]
    /\ JobResult_ID job = jobID
    /\ artifacts q' = artifacts q.
Proof.
  unfold RestoreBackup_tx. tx_unfold.
  destruct (prepareRestoreJob _ _ _ _) as [?|[p q1]] eqn:Hp; [discriminate|].
  apply prepareRestoreJob_reads in Hp. subst q1.
  unfold CreateRestoreHistoryItem, CreateJobResult.
  destruct (fault (OpCreateRestoreHistoryItem _)); [discriminate|].
  destruct (fault (OpCreateJobResult _ _ _)); [discriminate|].
  intros [= <- <- <- <-]. do 2 eexists. cbn. repeat split.
Qed.

(** C5: when the transaction of [StartBackup] has committed and the jobs
    service then answers the backup call with an error, [StartBackup]
    returns that error, and the database is the committed one, with the
    Artifact row and the JobResult row in it.  Likewise for
    [RestoreBackup] on a MySQL service: the error of the restore call is
    returned, and the RestoreHistoryItem row and the JobResult row stay. *)
Theorem dispatch_failure_returned_after_commit :
  (forall req s q' svc location artifact job config e,
     InTransactionContext fault (db s) (StartBackup_tx fault new_id req)
     = (q', inr (svc, location, artifact, job, config)) ->
     jobs_answer
       (StartMySQLBackupJob (JobResult_ID job) (PMMAgentID job) 0
          (sbr_Name req) config (locationConfig_of location)) = Some e ->
     StartBackup fault new_id jobs_answer req s
     = ({| db := q';
           jobsService :=
             jobsService s
             ++ [StartMySQLBackupJob (JobResult_ID job) (PMMAgentID job) 0
                   (sbr_Name req) config (locationConfig_of location)] |},
        inl e)
     /\ artifacts q' = artifacts (db s) ++ [artifact]
     /\ job_results q' = job_results (db s) ++ [job])
  /\
  (forall req s q' params jobID restoreID e,
     InTransactionContext fault (db s) (RestoreBackup_tx fault new_id req)
     = (q', inr (params, jobID, restoreID)) ->
     prj_ServiceType params = MySQLServiceType ->
     jobs_answer
       (StartMySQLRestoreBackupJob jobID (prj_AgentID params)
          (rbr_ServiceId req) 0 (prj_ArtifactName params)
          (locationConfig_of (prj_Location params))) = Some e ->
     RestoreBackup fault new_id jobs_answer req s
     = ({| db := q';
           jobsService :=
             jobsService s
             ++ [StartMySQLRestoreBackupJob jobID (prj_AgentID params)
                   (rbr_ServiceId req) 0 (prj_ArtifactName params)
                   (locationConfig_of (prj_Location params))] |},
        inl e)
     /\ exists item job,
          restore_history q' = restore_history (db s) ++ [item]
          /\ RestoreHistoryItem_ID item = restoreID
          /\ job_results q' = job_results (db s) ++ [job]
          /\ JobResult_ID job = jobID).
Proof.
  split.
  - intros req s q' svc location artifact job config e Htx Hjobs.
    pose proof (InTransactionContext_commit _ _ _ _ Htx) as (_ & Hbody & _).
    pose proof (StartBackup_tx_MySQL _ _ _ _ _ _ _ _ Hbody) as Hty.
    pose proof (StartBackup_tx_rows _ _ _ _ _ _ _ _ Hbody) as (Ha & Hj & _).
    split; [|auto].
    unfold StartBackup. rewrite Htx.
    replace (String.eqb (Service_ServiceType svc) MySQLServiceType) with true
      by (symmetry; now apply String.eqb_eq).
    unfold send. cbn [db jobsService]. now rewrite Hjobs.
  - intros req s q' params jobID restoreID e Htx Hty Hjobs.
    pose proof (InTransactionContext_commit _ _ _ _ Htx) as (_ & Hbody & _).
    pose proof (RestoreBackup_tx_rows _ _ _ _ _ _ Hbody)
      as (item & job & Hr & Hrid & Hj & Hjid & _).
    split; [|eauto 6].
    unfold RestoreBackup. rewrite Htx. unfold startRestoreJob.
    replace (String.eqb (prj_ServiceType params) MySQLServiceType) with true
      by (symmetry; now apply String.eqb_eq).
    unfold send. cbn [db jobsService]. now rewrite Hjobs.
Qed.

(** C10, as the code has it: [RestoreBackup] compares nothing between the
    artifact and the service.  For a MySQL service that exists and has an
    agent, and an artifact that exists with its location, the
    RestoreHistoryItem and the JobResult are created (the store accepting
    the inserts and the commit) and the restore call is made on the first
    agent with the artifact's stored name and the configuration of the
    artifact's location, whichever service the artifact was taken from.
    The call's answer decides between the restore id and the error. *)
Theorem RestoreBackup_MySQL_no_compatibility_check
    req s svc artifact location agent others :
  fault OpBegin = None ->
  FindServiceByID fault (rbr_ServiceId req) (db s) = inr svc ->
  Service_ServiceType svc = MySQLServiceType ->
  FindArtifactByID fault (rbr_ArtifactId req) (db s) = inr artifact ->
  FindBackupLocationByID fault (Artifact_LocationID artifact) (db s)
  = inr location ->
  FindPMMAgentsForService fault (rbr_ServiceId req) (db s)
  = inr (agent :: others) ->
  fault (OpCreateRestoreHistoryItem
           {| crp_ArtifactID := rbr_ArtifactId req;
              crp_ServiceID := rbr_ServiceId req;
              crp_Status := InProgressRestoreStatus |}) = None ->
  fault (OpCreateJobResult (AgentID agent) MySQLRestoreBackupJob
           {| MySQLBackup := None;
              MySQLRestoreBackup :=
                Some {| RestoreID := new_id (serial (db s)) |} |}) = None ->
  fault OpCommit = None ->
  exists s' item job,
    let sent := StartMySQLRestoreBackupJob (JobResult_ID job)
                  (AgentID agent) (rbr_ServiceId req) 0
                  (Artifact_Name artifact) (locationConfig_of location) in
    RestoreBackup fault new_id jobs_answer req s
    = (s', match jobs_answer sent with
           | Some e => inl e
           | None => inr {| RestoreId := RestoreHistoryItem_ID item |}
           end)
    /\ restore_history (db s') = restore_history (db s) ++ [item]
    /\ rhi_ArtifactID item = rbr_ArtifactId req
    /\ rhi_ServiceID item = rbr_ServiceId req
    /\ rhi_Status item = InProgressRestoreStatus
    /\ job_results (db s') = job_results (db s) ++ [job]
    /\ JobResult_Data job
       = {| MySQLBackup := None;
            MySQLRestoreBackup :=
              Some {| RestoreID := RestoreHistoryItem_ID item |} |}
    /\ PMMAgentID job = AgentID agent
    /\ artifacts (db s') = artifacts (db s)
    /\ jobsService s' = jobsService s ++ [sent].
Proof.
  intros Hb Hs Hty Har Hl Hag Hfr Hfj Hcm.
  unfold RestoreBackup, InTransactionContext, RestoreBackup_tx.
  rewrite Hb. tx_unfold.
  rewrite (prepareRestoreJob_ok _ _ _ svc artifact location agent others
             Hs Har Hl Hag).
  unfold CreateRestoreHistoryItem, CreateJobResult.
  rewrite Hfr. cbn [RestoreHistoryItem_ID prj_AgentID serial
                    insert_restore_history_item].
  rewrite Hfj, Hcm. unfold startRestoreJob.
  cbn [prj_ServiceType prj_AgentID prj_ArtifactName prj_Location
       JobResult_ID].
  replace (String.eqb (Service_ServiceType svc) MySQLServiceType) with true
    by (symmetry; now apply String.eqb_eq).
  unfold send. cbn [db jobsService].
  set (item := {| RestoreHistoryItem_ID := new_id (serial (db s));
                  rhi_ArtifactID := _; rhi_ServiceID := _;
                  rhi_Status := _ |}).
  set (job := {| JobResult_ID := new_id (S (serial (db s)));
                 PMMAgentID := _; JobResult_Type := _;
                 JobResult_Data := _ |}).
  set (sent := StartMySQLRestoreBackupJob _ _ _ _ _ _).
  exists {| db := insert_job_result job
                    (insert_restore_history_item item (db s));
            jobsService := jobsService s ++ [sent] |}, item, job.
  cbn zeta. split.
  - change (JobResult_ID job) with (new_id (S (serial (db s)))).
    fold sent. destruct (jobs_answer sent); reflexivity.
  - cbn. repeat split.
Qed.

End BackupProperties.

(* ===================================================================== *)
(** * Properties of the scheduler's registry *)
(* ===================================================================== *)

Section RegistryProperties.

Import registry.

Variable cron_next : string -> nat -> nat.

Implicit Types (s : Scheduler) (id : string) (l : list string).

Lemma not_running_none_in_flight id l :
  existsb (String.eqb id) l = false ->
  length (List.filter (String.eqb id) l) = 0.
Proof.
  induction l as [|x l IH]; cbn; [reflexivity|].
  destruct (String.eqb id x); cbn; [discriminate|exact IH].
Qed.

Lemma finish_le id' id l :
  length (List.filter (String.eqb id') (finish id l))
  <= length (List.filter (String.eqb id') l).
Proof.
  induction l as [|x l IH]; cbn; [lia|].
  destruct (String.eqb id x); cbn.
  - destruct (String.eqb id' x); cbn; lia.
  - destruct (String.eqb id' x); cbn; lia.
Qed.

Lemma finish_takes_one id l :
  existsb (String.eqb id) l = true ->
  S (length (List.filter (String.eqb id) (finish id l)))
  = length (List.filter (String.eqb id) l).
Proof.
  induction l as [|x l IH]; cbn; [discriminate|].
  destruct (String.eqb id x) eqn:E; cbn.
  - reflexivity.
  - rewrite E. exact IH.
Qed.

(** A step keeps the executions of every id at one or none. *)
Lemma step_single_flight ev s s' :
  step cron_next ev s = Some s' ->
  (forall id, in_flight id s <= 1) ->
  forall id, in_flight id s' <= 1.
Proof.
  intros Hstep Hinv id. specialize (Hinv id).
  unfold in_flight in *. destruct ev as [a t|a|d|a|a r]; cbn in Hstep.
  - destruct (tasks s !! a); [discriminate|]. now injection Hstep as <-.
  - destruct (tasks s !! a); [|discriminate]. now injection Hstep as <-.
  - now injection Hstep as <-.
  - destruct (tasks s !! a) as [e|]; [|discriminate].
    destruct (due (now s) e); [|discriminate].
    destruct (is_running a s) eqn:Hrun; injection Hstep as <-; [exact Hinv|].
    cbn. destruct (String.eqb id a) eqn:E; [|exact Hinv].
    apply String.eqb_eq in E. subst a. cbn.
    unfold is_running in Hrun.
    rewrite (not_running_none_in_flight _ _ Hrun). lia.
  - destruct (is_running a s); [|discriminate]. injection Hstep as <-. cbn.
    pose proof (finish_le id a (running s)). lia.
Qed.

Lemma run_single_flight evs s s' :
  run cron_next evs s = Some s' ->
  (forall id, in_flight id s <= 1) ->
  forall id, in_flight id s' <= 1.
Proof.
  revert s. induction evs as [|ev evs IH]; cbn; intros s Hrun Hinv.
  - now injection Hrun as <-.
  - destruct (step cron_next ev s) as [s1|] eqn:Hstep; [|discriminate].
    eapply IH; [exact Hrun|]. eapply step_single_flight; eassumption.
Qed.

(** C9, on the scheduler of the spec: in every state reached from a
    start of the run loop, no id has more than one execution of [Do] in
    flight.  When an entry is due while an execution of its id is in
    flight, handling it changes nothing: no execution is started and
    nothing is kept for later, so that when the execution returns that id
    has no execution in flight.  The return, at instant [now], settles the
    entry from that instant: a success puts the next fire at the cron
    expression's next instant after [now] and resets the retry counter; a
    failure within the retry budget puts it [retryInterval] after [now];
    a failure beyond the budget disables the task and keeps the error. *)
Theorem single_flight_per_task reg t0 evs s :
  run cron_next evs (start reg t0) = Some s ->
  (forall id, in_flight id s <= 1)
  /\ (forall id s',
        is_running id s = true ->
        step cron_next (Fire id) s = Some s' -> s' = s)
  /\ (forall id r s',
        step cron_next (Done id r) s = Some s' ->
        in_flight id s' = 0
        /\ now s' = now s
        /\ forall e, tasks s !! id = Some e ->
             exists e', tasks s' !! id = Some e'
               /\ match r with
                  | None =>
                      nextFire e' = cron_next (cronExpression e) (now s)
                      /\ failures e' = 0 /\ enabled e' = enabled e
                  | Some err =>
                      lastError e' = Some err
                      /\ failures e' = S (failures e)
                      /\ if (S (failures e) <=? retry e)%nat
                         then nextFire e' = (now s + retryInterval e)%nat
                              /\ enabled e' = enabled e
                         else enabled e' = false
                  end).
Proof.
  intros Hrun.
  assert (Hinv : forall id, in_flight id s <= 1).
  { eapply run_single_flight; [exact Hrun|]. intros id. cbn. lia. }
  split; [exact Hinv|]. split.
  - intros id s' Hr Hstep. cbn in Hstep.
    destruct (tasks s !! id) as [e|]; [|discriminate].
    destruct (due (now s) e); [|discriminate].
    rewrite Hr in Hstep. now injection Hstep as <-.
  - intros id r s' Hstep. cbn in Hstep.
    destruct (is_running id s) eqn:Hr; [|discriminate].
    injection Hstep as <-. cbn [running tasks now in_flight].
    split; [|split; [reflexivity|]].
    + unfold in_flight. cbn [running].
      pose proof (finish_takes_one id (running s) Hr) as Hone.
      specialize (Hinv id). unfold in_flight in Hinv. lia.
    + intros e He. exists (settle cron_next (now s) r e). split.
      * rewrite lookup_alter_eq, He. reflexivity.
      * destruct r as [err|]; unfold settle; [|cbn; auto].
        destruct (S (failures e) <=? retry e)%nat; cbn; auto.
Qed.

End RegistryProperties.

(* ===================================================================== *)
(** * The properties on the sample installation *)
(* ===================================================================== *)

Section Examples.

Import models backup sample.

(** C1, where the code departs from it: [RestoreBackup] looks at the
    service type only after its transaction has committed.  Restoring the
    weekly artifact to the PostgreSQL service, which has an agent, answers
    Unimplemented, and restoring it to the service of unrecognised type
    answers Unknown; either way one RestoreHistoryItem row and one
    JobResult row (a MySQL restore job) have been written and stay.
    Restoring to the PostgreSQL service that has no agent fails before any
    write, with the missing-agent error and not with Unimplemented.
    [StartBackup] on the first two services answers Unimplemented and
    Unknown and writes nothing. *)
Lemma RestoreBackup_rejects_type_after_commit :
  (let '(s', r) := RestoreBackup healthy row_id accepting
                     (restore_weekly "svc-pg-1") service in
   r = inl (status_Errorf Unimplemented "unimplemented service: postgresql")
   /\ restore_history (db s')
      = [{| RestoreHistoryItem_ID := "row-1";
            rhi_ArtifactID := "artifact-0";
            rhi_ServiceID := "svc-pg-1";
            rhi_Status := InProgressRestoreStatus |}]
   /\ job_results (db s')
      = [{| JobResult_ID := "row-2"; PMMAgentID := "pmm-agent-3";
            JobResult_Type := MySQLRestoreBackupJob;
            JobResult_Data :=
              {| MySQLBackup := None;
                 MySQLRestoreBackup := Some {| RestoreID := "row-1" |} |} |}]
   /\ jobsService s' = [])
  /\
  (let '(s', r) := RestoreBackup healthy row_id accepting
                     (restore_weekly "svc-redis-1") service in
   r = inl (status_Errorf Unknown "unknown service: redis")
   /\ length (restore_history (db s')) = 1
   /\ length (job_results (db s')) = 1
   /\ jobsService s' = [])
  /\ RestoreBackup healthy row_id accepting
       (restore_weekly "svc-pg-2") service
     = (service,
        inl (errors_Errorf "cannot find pmm agent for service svc-pg-2"))
  /\ StartBackup healthy row_id accepting (nightly "svc-pg-1") service
     = (service,
        inl (status_Errorf Unimplemented "unimplemented service: postgresql"))
  /\ StartBackup healthy row_id accepting (nightly "svc-redis-1") service
     = (service, inl (status_Errorf Unknown "unknown service: redis")).
Proof. vm_compute. repeat split. Qed.

(** C2 on the sample installation: the nightly backup of the first MySQL
    service. *)
Lemma StartBackup_MySQL_success_witness :
  exists s' artifact job,
    StartBackup healthy row_id accepting (nightly "svc-mysql-1") service
    = (s', inr {| ArtifactId := Artifact_ID artifact |})
    /\ Artifact_ID artifact <> ""
    /\ artifacts (db s') = artifacts (db service) ++ [artifact]
    /\ Artifact_Status artifact = PendingBackupStatus
    /\ Artifact_Vendor artifact = "mysql"
    /\ Artifact_Name artifact = "nightly"
    /\ Artifact_ServiceID artifact = "svc-mysql-1"
    /\ Artifact_LocationID artifact = "loc-1"
    /\ job_results (db s') = job_results (db service) ++ [job]
    /\ JobResult_Data job
       = {| MySQLBackup := Some {| ArtifactID := Artifact_ID artifact |};
            MySQLRestoreBackup := None |}
    /\ JobResult_Type job = MySQLBackupJob
    /\ PMMAgentID job = "pmm-agent-1"
    /\ restore_history (db s') = restore_history (db service)
    /\ jobsService s'
       = jobsService service
         ++ [StartMySQLBackupJob (JobResult_ID job) "pmm-agent-1" 0
               "nightly" "root@tcp(10.0.0.1:3306)/"
               {| blc_PMMServerConfig := None;
                  blc_PMMClientConfig := Some "/var/backups";
                  blc_S3Config := None |}].
Proof.
  apply (StartBackup_MySQL_success healthy row_id accepting
           (nightly "svc-mysql-1") service mysql1 loc1
           "root@tcp(10.0.0.1:3306)/" agent1 [agent2]);
    try reflexivity.
  vm_compute. discriminate.
Defined.

(** C3 on the sample installation: an unsupported type, an unrecognised
    type, a service without agent, a missing service and a failing
    commit. *)
Lemma StartBackup_failed_tx_persists_nothing_witness :
  StartBackup healthy row_id accepting (nightly "svc-pg-1") service
  = (service, inl (unimplemented_error "postgresql"))
  /\ StartBackup healthy row_id accepting (nightly "svc-redis-1") service
     = (service, inl (unknown_error "redis"))
  /\ StartBackup healthy row_id accepting (nightly "svc-mysql-2") service
     = (service, inl (errors_Errorf "pmmAgent not found for service"))
  /\ StartBackup healthy row_id accepting (nightly "svc-none") service
     = (service,
        inl (status_Errorf NotFound "Service with ID svc-none not found."))
  /\ StartBackup commit_fails row_id accepting (nightly "svc-mysql-1") service
     = (service, inl (errors_Errorf "driver: bad connection")).
Proof.
  split; [|split; [|split; [|split]]].
  - exact (proj1 (StartBackup_failed_tx_persists_nothing healthy row_id
                    accepting (nightly "svc-pg-1") service _ eq_refl)).
  - exact (proj1 (StartBackup_failed_tx_persists_nothing healthy row_id
                    accepting (nightly "svc-redis-1") service _ eq_refl)).
  - exact (proj1 (StartBackup_failed_tx_persists_nothing healthy row_id
                    accepting (nightly "svc-mysql-2") service _ eq_refl)).
  - exact (proj1 (StartBackup_failed_tx_persists_nothing healthy row_id
                    accepting (nightly "svc-none") service _ eq_refl)).
  - exact (proj1 (StartBackup_failed_tx_persists_nothing commit_fails row_id
                    accepting (nightly "svc-mysql-1") service _ eq_refl)).
Defined.

(** C4, as stated, fails: the second MySQL service has no agent, and the
    error [StartBackup] returns for it carries no status at all.  Read
    through [status.Code] it is Unknown, the code of the rejection of an
    unrecognised service type and of any error without a status. *)
Lemma no_agent_error_is_unclassified :
  exists e,
    StartBackup healthy row_id accepting (nightly "svc-mysql-2") service
    = (service, inl e)
    /\ FindPMMAgentsForService healthy "svc-mysql-2" tables = inr []
    /\ status_FromError e = None
    /\ status_Code e = status_Code (unknown_error "redis").
Proof. eexists. vm_compute. repeat split. Qed.

(** C4 as amended, on the MySQL service that has no agent. *)
Lemma StartBackup_no_agent_error_witness :
  exists e,
    StartBackup healthy row_id accepting (nightly "svc-mysql-2") service
    = (service, inl e)
    /\ e = errors_Errorf "pmmAgent not found for service"
    /\ status_FromError e = None
    /\ status_Code e = Unknown.
Proof.
  apply (StartBackup_no_agent_error healthy row_id accepting
           (nightly "svc-mysql-2") service mysql2 loc1
           "root@tcp(10.0.0.2:3306)/");
    reflexivity.
Defined.

(** C5 on the sample installation, with the agents disconnected: the
    backup leaves its Artifact and JobResult, the restore its
    RestoreHistoryItem and JobResult. *)
Lemma dispatch_failure_returned_after_commit_witness :
  (exists s',
     StartBackup healthy row_id disconnected (nightly "svc-mysql-1") service
     = (s', inl (status_Errorf FailedPrecondition
                   "pmm-agent with ID pmm-agent-1 is not currently connected"))
     /\ length (artifacts (db s')) = 2
     /\ length (job_results (db s')) = 1)
  /\
  (exists s',
     RestoreBackup healthy row_id disconnected
       (restore_weekly "svc-mysql-1") service
     = (s', inl (status_Errorf FailedPrecondition
                   "pmm-agent with ID pmm-agent-1 is not currently connected"))
     /\ length (restore_history (db s')) = 1
     /\ length (job_results (db s')) = 1).
Proof.
  destruct (dispatch_failure_returned_after_commit healthy row_id disconnected)
    as [Hbackup Hrestore].
  set (artifact := {| Artifact_ID := "row-1"; Artifact_Name := "nightly";
                      Artifact_Vendor := "mysql";
                      Artifact_LocationID := "loc-1";
                      Artifact_ServiceID := "svc-mysql-1";
                      Artifact_DataModel := PhysicalDataModel;
                      Artifact_Status := PendingBackupStatus |}).
  set (job := {| JobResult_ID := "row-2"; PMMAgentID := "pmm-agent-1";
                 JobResult_Type := MySQLBackupJob;
                 JobResult_Data :=
                   {| MySQLBackup := Some {| ArtifactID := "row-1" |};
                      MySQLRestoreBackup := None |} |}).
  set (item := {| RestoreHistoryItem_ID := "row-1";
                  rhi_ArtifactID := "artifact-0";
                  rhi_ServiceID := "svc-mysql-1";
                  rhi_Status := InProgressRestoreStatus |}).
  set (rjob := {| JobResult_ID := "row-2"; PMMAgentID := "pmm-agent-1";
                  JobResult_Type := MySQLRestoreBackupJob;
                  JobResult_Data :=
                    {| MySQLBackup := None;
                       MySQLRestoreBackup :=
                         Some {| RestoreID := "row-1" |} |} |}).
  split.
  - destruct (Hbackup (nightly "svc-mysql-1") service
                (insert_job_result job (insert_artifact artifact tables))
                mysql1 loc1 artifact job "root@tcp(10.0.0.1:3306)/"
                (status_Errorf FailedPrecondition
                   "pmm-agent with ID pmm-agent-1 is not currently connected")
                eq_refl eq_refl)
      as (Hret & Ha & Hj).
    eexists. split; [exact Hret|]. split; reflexivity.
  - destruct (Hrestore (restore_weekly "svc-mysql-1") service
                (insert_job_result rjob
                   (insert_restore_history_item item tables))
                {| prj_AgentID := "pmm-agent-1";
                   prj_ArtifactName := "weekly";
                   prj_Location := loc1;
                   prj_ServiceType := MySQLServiceType |}
                "row-2" "row-1"
                (status_Errorf FailedPrecondition
                   "pmm-agent with ID pmm-agent-1 is not currently connected")
                eq_refl eq_refl eq_refl)
      as (Hret & _).
    eexists. split; [exact Hret|]. split; reflexivity.
Defined.

(** C10, as stated, fails: the MongoDB service exists and has an agent,
    the weekly artifact and its location exist, and yet no restore is
    dispatched: the jobs service receives no call and the caller gets
    Unimplemented. *)
Lemma RestoreBackup_not_dispatched_for_MongoDB :
  FindServiceByID healthy "svc-mongo-1" tables = inr mongo1
  /\ FindPMMAgentsForService healthy "svc-mongo-1" tables = inr [agent3]
  /\ FindArtifactByID healthy "artifact-0" tables = inr weekly
  /\ FindBackupLocationByID healthy (Artifact_LocationID weekly) tables
     = inr loc1
  /\ jobsService (fst (RestoreBackup healthy row_id accepting
                         (restore_weekly "svc-mongo-1") service)) = []
  /\ snd (RestoreBackup healthy row_id accepting
            (restore_weekly "svc-mongo-1") service)
     = inl (status_Errorf Unimplemented "unimplemented service: mongodb").
Proof. vm_compute. repeat split. Qed.

(** C10 as amended: the weekly artifact of the second MySQL service is
    restored to the first. *)
Lemma RestoreBackup_MySQL_no_compatibility_check_witness :
  Artifact_ServiceID weekly <> "svc-mysql-1"
  /\ exists s' item job,
       RestoreBackup healthy row_id accepting
         (restore_weekly "svc-mysql-1") service
       = (s', inr {| RestoreId := RestoreHistoryItem_ID item |})
       /\ restore_history (db s') = [item]
       /\ job_results (db s') = [job]
       /\ jobsService s'
          = [StartMySQLRestoreBackupJob (JobResult_ID job) "pmm-agent-1"
               "svc-mysql-1" 0 "weekly"
               {| blc_PMMServerConfig := None;
                  blc_PMMClientConfig := Some "/var/backups";
                  blc_S3Config := None |}].
Proof.
  split; [vm_compute; discriminate|].
  destruct (RestoreBackup_MySQL_no_compatibility_check healthy row_id
              accepting (restore_weekly "svc-mysql-1") service
              mysql1 weekly loc1 agent1 [agent2]
              eq_refl eq_refl eq_refl eq_refl eq_refl eq_refl
              eq_refl eq_refl eq_refl)
    as (s' & item & job & Hret & Hr & _ & _ & _ & Hj & _ & _ & _ & Hsent).
  exists s', item, job. cbn zeta in Hret.
  split; [exact Hret|]. split; [exact Hr|]. split; [exact Hj|exact Hsent].
Defined.

(** C9 on the slow run: after it the task is still running and due, and
    firing it again changes nothing. *)
Lemma single_flight_per_task_witness :
  exists s,
    registry.run every_ten slow_run (registry.start ∅ 0) = Some s
    /\ (forall id, registry.in_flight id s <= 1)
    /\ registry.step every_ten (registry.Fire "task-1") s = Some s.
Proof.
  destruct (registry.run every_ten slow_run (registry.start ∅ 0))
    as [s|] eqn:Hrun; [|vm_compute in Hrun; discriminate].
  destruct (single_flight_per_task every_ten ∅ 0 slow_run s Hrun)
    as (Hinv & Hskip & _).
  exists s. split; [reflexivity|]. split; [exact Hinv|].
  assert (Hs : registry.is_running "task-1" s = true
               /\ is_Some (registry.step every_ten (registry.Fire "task-1") s)).
  { vm_compute in Hrun. injection Hrun as <-. split; [reflexivity|].
    vm_compute. eauto. }
  destruct Hs as [Hr [s' Hs']].
  rewrite Hs'. f_equal. exact (Hskip "task-1" s' Hr Hs').
Defined.

End Examples.

(* ===================================================================== *)
(** * More about the backup service *)
(* ===================================================================== *)

Section BackupOutcomes.

Import models backup.

Context {PMMServerLocationConfig PMMClientLocationConfig
         S3LocationConfig DBConfig : Type}.

Local Abbreviation Querier :=
  (models.Querier PMMServerLocationConfig PMMClientLocationConfig
     S3LocationConfig DBConfig).
Local Abbreviation BackupsService :=
  (backup.BackupsService PMMServerLocationConfig PMMClientLocationConfig
     S3LocationConfig DBConfig).
Local Abbreviation JobCall :=
  (backup.JobCall PMMServerLocationConfig PMMClientLocationConfig
     S3LocationConfig DBConfig).

Variable fault : StoreOp -> option error.
Variable new_id : nat -> string.
Variable jobs_answer : JobCall -> option error.

Implicit Types (q : Querier) (s : BackupsService) (e : error).

Ltac tx_unfold :=
  unfold mbind, mret, tx_bind, tx_ret, tx_read, tx_fail in *.

(** The lookups by id return a row that has the id asked for. *)
Lemma FindServiceByID_id id q svc :
  FindServiceByID fault id q = inr svc -> ServiceID svc = id.
Proof.
  unfold FindServiceByID, guarded. destruct (fault _); [discriminate|].
  destruct (find _ _) as [s0|] eqn:Hf; [|discriminate].
  intros [= <-]. apply find_some in Hf. now apply String.eqb_eq.
Qed.

Lemma FindBackupLocationByID_id id q location :
  FindBackupLocationByID fault id q = inr location ->
  BackupLocation_ID location = id.
Proof.
  unfold FindBackupLocationByID, guarded. destruct (fault _); [discriminate|].
  destruct (find _ _) as [l0|] eqn:Hf; [|discriminate].
  intros [= <-]. apply find_some in Hf. now apply String.eqb_eq.
Qed.

(** Everything a transaction of [StartBackup] that goes through has
    done. *)
Lemma StartBackup_tx_shape req q svc location artifact job config q' :
  StartBackup_tx fault new_id req q
  = inr (svc, location, artifact, job, config, q') ->
  FindServiceByID fault (sbr_ServiceId req) q = inr svc
  /\ FindBackupLocationByID fault (sbr_LocationId req) q = inr location
  /\ Service_ServiceType svc = MySQLServiceType
  /\ artifact = {| Artifact_ID := new_id (serial q);
                   Artifact_Name := sbr_Name req;
                   Artifact_Vendor := Service_ServiceType svc;
                   Artifact_LocationID := BackupLocation_ID location;
                   Artifact_ServiceID := ServiceID svc;
                   Artifact_DataModel := PhysicalDataModel;
                   Artifact_Status := PendingBackupStatus |}
  /\ (exists agent others,
        FindPMMAgentsForService fault (ServiceID svc) q
        = inr (agent :: others)
        /\ job = {| JobResult_ID := new_id (S (serial q));
                    PMMAgentID := AgentID agent;
                    JobResult_Type := MySQLBackupJob;
                    JobResult_Data :=
                      {| MySQLBackup :=
                           Some {| ArtifactID := new_id (serial q) |};
                         MySQLRestoreBackup := None |} |})
  /\ FindDBConfigForService fault (ServiceID svc) q = inr config
  /\ q' = insert_job_result job (insert_artifact artifact q).
Proof.
  unfold StartBackup_tx, prepareBackupJob. tx_unfold.
  destruct (FindServiceByID fault (sbr_ServiceId req) q) as [?|svc0] eqn:Hs;
    [discriminate|].
  destruct (FindBackupLocationByID fault (sbr_LocationId req) q)
    as [?|loc0] eqn:Hl; [discriminate|].
  destruct (String.eqb (Service_ServiceType svc0) MySQLServiceType) eqn:Hty;
    [|destruct (unimplemented_service _); discriminate].
  apply String.eqb_eq in Hty.
  unfold CreateArtifact, CreateJobResult.
  destruct (fault (OpCreateArtifact _)); [discriminate|].
  set (art := {| Artifact_ID := new_id (serial q); Artifact_Name := _;
                 Artifact_Vendor := _; Artifact_LocationID := _;
                 Artifact_ServiceID := _; Artifact_DataModel := _;
                 Artifact_Status := _ |}).
  rewrite (FindDBConfigForService_frame fault (insert_artifact art q) q)
    by reflexivity.
  destruct (FindDBConfigForService _ _ _) as [?|cfg0] eqn:Hc; [discriminate|].
  rewrite (FindPMMAgentsForService_frame fault (insert_artifact art q) q)
    by reflexivity.
  destruct (FindPMMAgentsForService _ _ _) as [?|[|a0 rest]] eqn:Ha;
    [discriminate|discriminate|].
  destruct (fault (OpCreateJobResult _ _ _)); [discriminate|].
  intros [= <- <- <- <- <- <-]. cbn [serial insert_artifact Artifact_ID].
  split; [reflexivity|]. split; [reflexivity|]. split; [exact Hty|].
  split; [reflexivity|]. split; [|split; [exact Hc|reflexivity]].
  exists a0, rest. split; [exact Ha|reflexivity].
Qed.


Lemma FindServiceByID_frame q q' id :
  services q = services q' ->
  FindServiceByID fault id q = FindServiceByID fault id q'.
Proof. intros H. unfold FindServiceByID, guarded. now rewrite H. Qed.

Lemma FindBackupLocationByID_frame q q' id :
  locations q = locations q' ->
  FindBackupLocationByID fault id q = FindBackupLocationByID fault id q'.
Proof. intros H. unfold FindBackupLocationByID, guarded. now rewrite H. Qed.

Lemma FindArtifactByID_frame q q' id :
  artifacts q = artifacts q' ->
  FindArtifactByID fault id q = FindArtifactByID fault id q'.
Proof. intros H. unfold FindArtifactByID, guarded. now rewrite H. Qed.

Lemma find_app_found {A} (f : A -> bool) l l' x :
  find f l = Some x -> find f (l ++ l') = Some x.
Proof.
  induction l as [|y l IH]; cbn; [discriminate|].
  destruct (f y); [trivial|exact IH].
Qed.

Lemma find_app_fresh {A} (f : A -> bool) l x :
  (forall y, In y l -> f y = false) -> f x = true ->
  find f (l ++ [x]) = Some x.
Proof.
  intros Hl Hx. induction l as [|y l IH]; cbn.
  - now rewrite Hx.
  - rewrite (Hl y) by now left. apply IH. intros z Hz. apply Hl. now right.
Qed.

(** An artifact found by id is still the one found after any rows have
    been appended. *)
Lemma FindArtifactByID_stable q q' id a more :
  artifacts q' = artifacts q ++ more ->
  FindArtifactByID fault id q = inr a ->
  FindArtifactByID fault id q' = inr a.
Proof.
  intros Hq. unfold FindArtifactByID, guarded.
  destruct (fault _); [trivial|]. rewrite Hq.
  destruct (find _ (artifacts q)) as [a0|] eqn:Hf; [|discriminate].
  intros [= <-]. now rewrite (find_app_found _ _ more _ Hf).
Qed.

(** Everything a transaction of [RestoreBackup] that goes through has
    done. *)
Lemma RestoreBackup_tx_shape req q params jobID restoreID q' :
  RestoreBackup_tx fault new_id req q = inr (params, jobID, restoreID, q') ->
  exists svc artifact location agent others,
    FindServiceByID fault (rbr_ServiceId req) q = inr svc
    /\ FindArtifactByID fault (rbr_ArtifactId req) q = inr artifact
    /\ FindBackupLocationByID fault (Artifact_LocationID artifact) q
       = inr location
    /\ FindPMMAgentsForService fault (rbr_ServiceId req) q
       = inr (agent :: others)
    /\ params = {| prj_AgentID := AgentID agent;
                   prj_ArtifactName := Artifact_Name artifact;
                   prj_Location := location;
                   prj_ServiceType := Service_ServiceType svc |}
    /\ restoreID = new_id (serial q)
    /\ jobID = new_id (S (serial q))
    /\ q' = insert_job_result
              {| JobResult_ID := new_id (S (serial q));
                 PMMAgentID := AgentID agent;
                 JobResult_Type := MySQLRestoreBackupJob;
                 JobResult_Data :=
                   {| MySQLBackup := None;
                      MySQLRestoreBackup :=
                        Some {| RestoreID := new_id (serial q) |} |} |}
              (insert_restore_history_item
                 {| RestoreHistoryItem_ID := new_id (serial q);
                    rhi_ArtifactID := rbr_ArtifactId req;
                    rhi_ServiceID := rbr_ServiceId req;
                    rhi_Status := InProgressRestoreStatus |} q).
Proof.
  unfold RestoreBackup_tx, prepareRestoreJob. tx_unfold.
  destruct (FindServiceByID _ _ _) as [?|svc] eqn:Hs; [discriminate|].
  destruct (FindArtifactByID _ _ _) as [?|artifact] eqn:Har; [discriminate|].
  destruct (FindBackupLocationByID _ _ _) as [?|location] eqn:Hl;
    [discriminate|].
  destruct (FindPMMAgentsForService _ _ _) as [?|[|agent others]] eqn:Hag;
    [discriminate|discriminate|].
  unfold CreateRestoreHistoryItem, CreateJobResult.
  destruct (fault (OpCreateRestoreHistoryItem _)); [discriminate|].
  destruct (fault (OpCreateJobResult _ _ _)); [discriminate|].
  intros [= <- <- <- <-].
  exists svc, artifact, location, agent, others.
  cbn. repeat split; assumption.
Qed.

(** X2: every [RestoreBackup] call ends in one of three ways.  Either its
    transaction fails, and it returns the error with the state exactly as
    it was.  Or the transaction has committed exactly one in-progress
    RestoreHistoryItem for the requested artifact and service and one
    MySQL restore JobResult tagged with its id and assigned to the first
    agent; then, for a MySQL service, exactly one restore call is made with
    the artifact's name and the configuration of the artifact's location,
    and its answer decides between the restore id and the error; for any
    other service no call is made and the error of the switch is returned,
    the two rows staying in place. *)
Theorem RestoreBackup_outcomes req s :
  (exists e, RestoreBackup fault new_id jobs_answer req s = (s, inl e))
  \/ (exists svc artifact location agent,
        let item := {| RestoreHistoryItem_ID := new_id (serial (db s));
                       rhi_ArtifactID := rbr_ArtifactId req;
                       rhi_ServiceID := rbr_ServiceId req;
                       rhi_Status := InProgressRestoreStatus |} in
        let job := {| JobResult_ID := new_id (S (serial (db s)));
                      PMMAgentID := AgentID agent;
                      JobResult_Type := MySQLRestoreBackupJob;
                      JobResult_Data :=
                        {| MySQLBackup := None;
                           MySQLRestoreBackup :=
                             Some {| RestoreID :=
                                       RestoreHistoryItem_ID item |} |} |} in
        let committed := insert_job_result job
                           (insert_restore_history_item item (db s)) in
        let sent := StartMySQLRestoreBackupJob (JobResult_ID job)
                      (AgentID agent) (rbr_ServiceId req) 0
                      (Artifact_Name artifact) (locationConfig_of location) in
        FindServiceByID fault (rbr_ServiceId req) (db s) = inr svc
        /\ FindArtifactByID fault (rbr_ArtifactId req) (db s) = inr artifact
        /\ FindBackupLocationByID fault (Artifact_LocationID artifact) (db s)
           = inr location
        /\ RestoreBackup fault new_id jobs_answer req s
           = if String.eqb (Service_ServiceType svc) MySQLServiceType
             then ({| db := committed;
                      jobsService := jobsService s ++ [sent] |},
                   match jobs_answer sent with
                   | Some e => inl e
                   | None =>
                       inr {| RestoreId := RestoreHistoryItem_ID item |}
                   end)
             else ({| db := committed; jobsService := jobsService s |},
                   inl (if unimplemented_service (Service_ServiceType svc)
                        then unimplemented_error (Service_ServiceType svc)
                        else unknown_error (Service_ServiceType svc)))).
Proof.
  destruct (InTransactionContext fault (db s)
              (RestoreBackup_tx fault new_id req))
    as [q' [e|[[params jobID] restoreID]]] eqn:Htx.
  - left. exists e. unfold RestoreBackup. rewrite Htx.
    apply InTransactionContext_failure in Htx. subst q'.
    destruct s; reflexivity.
  - right.
    pose proof (InTransactionContext_commit fault _ _ _ _ Htx)
      as (_ & Hbody & _).
    destruct (RestoreBackup_tx_shape _ _ _ _ _ _ Hbody)
      as (svc & artifact & location & agent & others
          & Hs & Har & Hl & _ & -> & -> & -> & ->).
    exists svc, artifact, location, agent. cbn zeta.
    split; [exact Hs|]. split; [exact Har|]. split; [exact Hl|].
    unfold RestoreBackup. rewrite Htx. unfold startRestoreJob, send.
    cbn [prj_ServiceType prj_AgentID prj_ArtifactName prj_Location
         db jobsService JobResult_ID RestoreHistoryItem_ID].
    destruct (String.eqb (Service_ServiceType svc) MySQLServiceType).
    + destruct (jobs_answer _); reflexivity.
    + destruct (unimplemented_service _); reflexivity.
Qed.

Lemma StartBackup_db req s :
  db (fst (StartBackup fault new_id jobs_answer req s)) = db s
  \/ exists artifact job,
       db (fst (StartBackup fault new_id jobs_answer req s))
       = insert_job_result job (insert_artifact artifact (db s)).
Proof.
  unfold StartBackup.
  destruct (InTransactionContext fault (db s) (StartBackup_tx fault new_id req))
    as [q' [e|[[[[svc location] artifact] job] config]]] eqn:Htx.
  - left. apply InTransactionContext_failure in Htx. now subst q'.
  - right. exists artifact, job.
    pose proof (InTransactionContext_commit fault _ _ _ _ Htx)
      as (_ & Hbody & _).
    pose proof (StartBackup_tx_shape _ _ _ _ _ _ _ _ Hbody)
      as (_ & _ & _ & _ & _ & _ & ->).
    unfold send.
    destruct (String.eqb _ _); [destruct (jobs_answer _); reflexivity|].
    destruct (unimplemented_service _); reflexivity.
Qed.

Lemma RestoreBackup_db req s :
  db (fst (RestoreBackup fault new_id jobs_answer req s)) = db s
  \/ exists item job,
       db (fst (RestoreBackup fault new_id jobs_answer req s))
       = insert_job_result job (insert_restore_history_item item (db s)).
Proof.
  unfold RestoreBackup.
  destruct (InTransactionContext fault (db s)
              (RestoreBackup_tx fault new_id req))
    as [q' [e|[[params jobID] restoreID]]] eqn:Htx.
  - left. apply InTransactionContext_failure in Htx. now subst q'.
  - right.
    pose proof (InTransactionContext_commit fault _ _ _ _ Htx)
      as (_ & Hbody & _).
    destruct (RestoreBackup_tx_shape _ _ _ _ _ _ Hbody)
      as (svc & artifact & location & agent & others
          & _ & _ & _ & _ & _ & _ & _ & ->).
    do 2 eexists. unfold startRestoreJob, send.
    destruct (String.eqb _ _); [destruct (jobs_answer _); reflexivity|].
    destruct (unimplemented_service _); reflexivity.
Qed.

(** X3: neither call touches the inventory or rewrites a row.  After
    [StartBackup] and after [RestoreBackup], whatever they return, the
    services, locations, agents and DB configs are what they were, and
    every table of rows is the old table with at most one row appended.
    [StartBackup] never adds a RestoreHistoryItem and [RestoreBackup] never
    adds an Artifact, so an artifact that could be found by id before
    either call is found, unchanged, after it. *)
Theorem backup_calls_only_append breq rreq s :
  let sb := fst (StartBackup fault new_id jobs_answer breq s) in
  let sr := fst (RestoreBackup fault new_id jobs_answer rreq s) in
  (services (db sb) = services (db s)
   /\ locations (db sb) = locations (db s)
   /\ pmm_agents (db sb) = pmm_agents (db s)
   /\ db_configs (db sb) = db_configs (db s)
   /\ restore_history (db sb) = restore_history (db s)
   /\ (exists more, artifacts (db sb) = artifacts (db s) ++ more
                    /\ length more <= 1)
   /\ (exists more, job_results (db sb) = job_results (db s) ++ more
                    /\ length more <= 1))
  /\ (services (db sr) = services (db s)
      /\ locations (db sr) = locations (db s)
      /\ pmm_agents (db sr) = pmm_agents (db s)
      /\ db_configs (db sr) = db_configs (db s)
      /\ artifacts (db sr) = artifacts (db s)
      /\ (exists more, restore_history (db sr) = restore_history (db s) ++ more
                       /\ length more <= 1)
      /\ (exists more, job_results (db sr) = job_results (db s) ++ more
                       /\ length more <= 1))
  /\ (forall id a,
        FindArtifactByID fault id (db s) = inr a ->
        FindArtifactByID fault id (db sb) = inr a
        /\ FindArtifactByID fault id (db sr) = inr a).
Proof.
  cbn zeta.
  assert (Hb :
    services (db (fst (StartBackup fault new_id jobs_answer breq s)))
    = services (db s)
    /\ locations (db (fst (StartBackup fault new_id jobs_answer breq s)))
       = locations (db s)
    /\ pmm_agents (db (fst (StartBackup fault new_id jobs_answer breq s)))
       = pmm_agents (db s)
    /\ db_configs (db (fst (StartBackup fault new_id jobs_answer breq s)))
       = db_configs (db s)
    /\ restore_history (db (fst (StartBackup fault new_id jobs_answer breq s)))
       = restore_history (db s)
    /\ (exists more,
          artifacts (db (fst (StartBackup fault new_id jobs_answer breq s)))
          = artifacts (db s) ++ more /\ length more <= 1)
    /\ (exists more,
          job_results (db (fst (StartBackup fault new_id jobs_answer breq s)))
          = job_results (db s) ++ more /\ length more <= 1)).
  { destruct (StartBackup_db breq s) as [->|(artifact & job & ->)].
    - do 5 (split; [reflexivity|]).
      split; exists []; rewrite app_nil_r; (split; [reflexivity|cbn; lia]).
    - cbn. do 5 (split; [reflexivity|]).
      split; eexists; (split; [reflexivity|cbn; lia]). }
  assert (Hr :
    services (db (fst (RestoreBackup fault new_id jobs_answer rreq s)))
    = services (db s)
    /\ locations (db (fst (RestoreBackup fault new_id jobs_answer rreq s)))
       = locations (db s)
    /\ pmm_agents (db (fst (RestoreBackup fault new_id jobs_answer rreq s)))
       = pmm_agents (db s)
    /\ db_configs (db (fst (RestoreBackup fault new_id jobs_answer rreq s)))
       = db_configs (db s)
    /\ artifacts (db (fst (RestoreBackup fault new_id jobs_answer rreq s)))
       = artifacts (db s)
    /\ (exists more,
          restore_history
            (db (fst (RestoreBackup fault new_id jobs_answer rreq s)))
          = restore_history (db s) ++ more /\ length more <= 1)
    /\ (exists more,
          job_results (db (fst (RestoreBackup fault new_id jobs_answer rreq s)))
          = job_results (db s) ++ more /\ length more <= 1)).
  { destruct (RestoreBackup_db rreq s) as [->|(item & job & ->)].
    - do 5 (split; [reflexivity|]).
      split; exists []; rewrite app_nil_r; (split; [reflexivity|cbn; lia]).
    - cbn. do 5 (split; [reflexivity|]).
      split; eexists; (split; [reflexivity|cbn; lia]). }
  split; [exact Hb|]. split; [exact Hr|].
  intros id a Hfind. split.
  - destruct Hb as (_ & _ & _ & _ & _ & (more & Hmore & _) & _).
    eapply FindArtifactByID_stable; eassumption.
  - destruct Hr as (_ & _ & _ & _ & Har & _).
    rewrite (FindArtifactByID_frame _ (db s) id Har). exact Hfind.
Qed.

(** X4: a backup that has just been started can be restored.  On a store
    that does not fail and a jobs service that accepts, after [StartBackup]
    on a MySQL service whose lookups resolve has returned an artifact id
    that no earlier artifact carries, [RestoreBackup] of that id to the
    same service finds the new artifact and its location, and makes the
    restore call on the same agent, with the name the backup was requested
    under and the configuration of the backup's location. *)
Theorem backup_then_restore req s svc location config agent others :
  (forall op, fault op = None) ->
  (forall c, jobs_answer c = None) ->
  FindServiceByID fault (sbr_ServiceId req) (db s) = inr svc ->
  Service_ServiceType svc = MySQLServiceType ->
  FindBackupLocationByID fault (sbr_LocationId req) (db s) = inr location ->
  FindDBConfigForService fault (sbr_ServiceId req) (db s) = inr config ->
  FindPMMAgentsForService fault (sbr_ServiceId req) (db s)
  = inr (agent :: others) ->
  (forall a, In a (artifacts (db s)) ->
             Artifact_ID a <> new_id (serial (db s))) ->
  exists s1 s2 artifactID restoreID backupJob restoreJob,
    StartBackup fault new_id jobs_answer req s
    = (s1, inr {| ArtifactId := artifactID |})
    /\ RestoreBackup fault new_id jobs_answer
         {| rbr_ServiceId := sbr_ServiceId req;
            rbr_ArtifactId := artifactID |} s1
       = (s2, inr {| RestoreId := restoreID |})
    /\ jobsService s2
       = jobsService s
         ++ [StartMySQLBackupJob backupJob (AgentID agent) 0
               (sbr_Name req) config (locationConfig_of location);
             StartMySQLRestoreBackupJob restoreJob (AgentID agent)
               (sbr_ServiceId req) 0 (sbr_Name req)
               (locationConfig_of location)]
    /\ restore_history (db s2)
       = restore_history (db s)
         ++ [{| RestoreHistoryItem_ID := restoreID;
                rhi_ArtifactID := artifactID;
                rhi_ServiceID := sbr_ServiceId req;
                rhi_Status := InProgressRestoreStatus |}].
Proof.
  intros Hok Hjobs Hs Hty Hl Hc Ha Hfresh.
  pose proof (FindServiceByID_id _ _ _ Hs) as Hsid.
  pose proof (FindBackupLocationByID_id _ _ _ Hl) as Hlid.
  set (artifact := {| Artifact_ID := new_id (serial (db s));
                      Artifact_Name := sbr_Name req;
                      Artifact_Vendor := Service_ServiceType svc;
                      Artifact_LocationID := BackupLocation_ID location;
                      Artifact_ServiceID := ServiceID svc;
                      Artifact_DataModel := PhysicalDataModel;
                      Artifact_Status := PendingBackupStatus |}).
  set (job := {| JobResult_ID := new_id (S (serial (db s)));
                 PMMAgentID := AgentID agent;
                 JobResult_Type := MySQLBackupJob;
                 JobResult_Data :=
                   {| MySQLBackup :=
                        Some {| ArtifactID := new_id (serial (db s)) |};
                      MySQLRestoreBackup := None |} |}).
  set (q1 := insert_job_result job (insert_artifact artifact (db s))).
  set (sent1 := StartMySQLBackupJob (new_id (S (serial (db s))))
                  (AgentID agent) 0 (sbr_Name req) config
                  (locationConfig_of location)).
  set (s1 := {| db := q1; jobsService := jobsService s ++ [sent1] |}).
  assert (H1 : StartBackup fault new_id jobs_answer req s
               = (s1, inr {| ArtifactId := new_id (serial (db s)) |})).
  { pose proof (StartBackup_tx_MySQL_prefix fault new_id req (db s) svc
                  location Hs Hty Hl (Hok _)) as Htx. cbn zeta in Htx.
    rewrite (prepareBackupJob_ok fault new_id svc _ MySQLBackupJob _
               config agent others) in Htx;
      [ | rewrite Hsid, <- Hc; now apply FindDBConfigForService_frame
        | rewrite Hsid, <- Ha; now apply FindPMMAgentsForService_frame
        | apply Hok ].
    unfold StartBackup, InTransactionContext.
    rewrite (Hok OpBegin), Htx, (Hok OpCommit).
    replace (String.eqb (Service_ServiceType svc) MySQLServiceType)
      with true by (symmetry; now apply String.eqb_eq).
    unfold send. rewrite Hjobs. reflexivity. }
  assert (Hfind : FindArtifactByID fault (new_id (serial (db s))) q1
                  = inr artifact).
  { unfold FindArtifactByID, guarded. rewrite Hok.
    cbn [q1 artifacts insert_job_result insert_artifact].
    rewrite find_app_fresh; [reflexivity| |apply String.eqb_refl].
    intros y Hy. apply String.eqb_neq. now apply Hfresh. }
  exists s1. eexists. exists (new_id (serial (db s))). do 3 eexists.
  split; [exact H1|].
  unfold RestoreBackup, InTransactionContext, RestoreBackup_tx.
  rewrite (Hok OpBegin). unfold mbind, tx_bind at 1.
  cbn [db s1 rbr_ServiceId rbr_ArtifactId].
  rewrite (prepareRestoreJob_ok fault _ _ _ svc artifact location
             agent others);
    [ | rewrite <- Hs; now apply FindServiceByID_frame
      | exact Hfind
      | cbn [artifact Artifact_LocationID]; rewrite Hlid, <- Hl;
        now apply FindBackupLocationByID_frame
      | rewrite <- Ha; now apply FindPMMAgentsForService_frame ].
  tx_unfold. unfold CreateRestoreHistoryItem, CreateJobResult.
  rewrite !Hok. unfold startRestoreJob.
  cbn [prj_ServiceType prj_AgentID prj_ArtifactName prj_Location
       JobResult_ID RestoreHistoryItem_ID].
  replace (String.eqb (Service_ServiceType svc) MySQLServiceType)
    with true by (symmetry; now apply String.eqb_eq).
  unfold send. rewrite Hjobs. cbn [db jobsService].
  split; [reflexivity|]. split.
  - cbn. rewrite <- app_assoc. reflexivity.
  - reflexivity.
Qed.

End BackupOutcomes.

(* ===================================================================== *)
(** * Properties of the Prometheus service *)
(* ===================================================================== *)

Section PrometheusFiles.

Import prometheus.

Variable os_fault : OsOp -> option error.
Variable torn : string -> string.
Variable temp_name : Host -> string.
Variable exec_CombinedOutput :
  string -> list string -> Host -> string * option error.
Variable http : request -> Host -> http_result.
Variable FindStringSubmatch : string -> list string.

Local Abbreviation saveConfigAndReload :=
  (prometheus.saveConfigAndReload os_fault torn temp_name
     exec_CombinedOutput http FindStringSubmatch).

Implicit Types (svc : Service) (cfg : byteslice) (h : Host).

(** Equations between file systems, decided path by path. *)
Ltac files_eq :=
  cbn [files put record Remove]; apply map_eq; intros ?p;
  repeat (rewrite lookup_insert || rewrite lookup_delete);
  repeat case_decide; simplify_eq; first [done | congruence].

Lemma ReadFile_Some path h content :
  ReadFile os_fault path h = inr content ->
  os_fault (OpReadFile path) = None
  /\ exists mode, files h !! path = Some (content, mode).
Proof.
  unfold ReadFile. destruct (os_fault _); [discriminate|].
  destruct (files h !! path) as [[c m]|]; [|discriminate].
  intros [= <-]. eauto.
Qed.

Lemma Stat_Some path h mode :
  Stat os_fault path h = inr mode ->
  exists content, files h !! path = Some (content, mode).
Proof.
  unfold Stat. destruct (os_fault _); [discriminate|].
  destruct (files h !! path) as [[c m]|]; [|discriminate].
  intros [= <-]. eauto.
Qed.

Lemma TempFile_fresh h f h1 :
  TempFile os_fault temp_name h = inr (f, h1) ->
  files h !! f = None /\ h1 = put f "" 384 h.
Proof.
  unfold TempFile. destruct (os_fault _); [discriminate|].
  destruct (files h !! temp_name h) eqn:E; [discriminate|].
  intros [= <- <-]. auto.
Qed.

Lemma DeepEqual_true cfg old :
  DeepEqual cfg old = true -> cfg = Some old.
Proof.
  destruct cfg as [c|]; cbn; [|discriminate].
  intros H. apply String.eqb_eq in H. now subst.
Qed.

Lemma reload_files h h' r :
  reload http h = (h', r) ->
  files h' = files h /\ done h' = done h ++ [requested (POST ["-"; "reload"])].
Proof.
  unfold reload. destruct (http _ h) as [e|code [e|b]];
    [|destruct (code =? 200)%nat..]; intros [= <- <-]; auto.
Qed.

(** X5: when [saveConfigAndReload] returns nil, the configuration file
    holds exactly the bytes it was given, under the mode it had, and no
    other file has changed or been left behind.  Either the file already
    held those bytes (given as a slice that is not nil) and nothing at all
    was done, or promtool has checked a temporary copy and Prometheus has
    been asked to reload, once each and in that order.  A nil slice is
    never taken as unchanged, even on an empty file. *)
Theorem saveConfigAndReload_nil_result svc cfg h h' :
  saveConfigAndReload svc cfg h = (h', None) ->
  exists old mode,
    files h !! configPath svc = Some (old, mode)
    /\ files h' = <[configPath svc := (bytes_of cfg, mode)]> (files h)
    /\ ((cfg = Some old /\ h' = h)
        \/ exists f,
             files h !! f = None
             /\ done h'
                = done h
                  ++ [executed (promtoolPath svc) ["check"; "config"; f];
                      requested (POST ["-"; "reload"])]).
Proof.
  unfold prometheus.saveConfigAndReload.
  destruct (ReadFile _ _ _) as [e|old] eqn:Hread; [discriminate|].
  apply ReadFile_Some in Hread as (_ & mode & Hold).
  destruct (DeepEqual cfg old) eqn:Heq.
  { intros [= <-]. apply DeepEqual_true in Heq. subst cfg.
    exists old, mode. split; [exact Hold|]. split; [|now left].
    cbn. now rewrite insert_id. }
  unfold Stat. destruct (os_fault (OpStat _)); [discriminate|].
  rewrite Hold.
  destruct (TempFile _ _ _) as [e|[f h1]] eqn:Htemp; [discriminate|].
  apply TempFile_fresh in Htemp as (Hf & ->).
  unfold Write. destruct (os_fault (OpWrite _ _)); [discriminate|].
  destruct (exec_CombinedOutput _ _ _) as [b [e|]]; [discriminate|].
  unfold WriteFile. cbn [files put record].
  assert (Hne : f <> configPath svc) by (intros ->; congruence).
  rewrite !lookup_insert_ne by done. rewrite Hold.
  destruct (os_fault (OpWriteFile _ _)); [discriminate|].
  destruct (reload _ _) as [h5 [e|]] eqn:Hreload; [discriminate|].
  apply reload_files in Hreload as (Hfiles & Hdone).
  intros [= <-]. exists old, mode. split; [reflexivity|].
  unfold Remove. cbn [files done]. rewrite Hfiles, Hdone. cbn [files put done].
  split; [files_eq|].
  right. exists f. split; [exact Hf|]. cbn. now rewrite <- app_assoc.
Qed.

(** The ways through [saveConfigAndReload]: nothing touched; or, with the
    old content read and a fresh temporary file made, the write to the
    temporary file fails, or the check fails, or the write to the
    configuration file fails, or the reload fails, or all goes well. *)
Lemma saveConfigAndReload_paths svc cfg h :
  (exists r, saveConfigAndReload svc cfg h = (h, r)
             /\ (r = None -> exists mode,
                   files h !! configPath svc = Some (bytes_of cfg, mode)
                   /\ cfg <> None))
  \/ exists old mode f,
       files h !! configPath svc = Some (old, mode)
       /\ files h !! f = None
       /\ DeepEqual cfg old = false
       /\ let h2 := put f (bytes_of cfg) 384 (put f "" 384 h) in
          let run := executed (promtoolPath svc) ["check"; "config"; f] in
          let h3 := record run h2 in
          let h4 := put (configPath svc) (bytes_of cfg) mode h3 in
          (exists e,
             saveConfigAndReload svc cfg h
             = (put f (torn (bytes_of cfg)) 384 (put f "" 384 h), Some e)
             /\ os_fault (OpWrite f (bytes_of cfg)) = Some e)
          \/ (exists b e,
                exec_CombinedOutput (promtoolPath svc)
                  ["check"; "config"; f] h2 = (b, Some e)
                /\ saveConfigAndReload svc cfg h
                   = (Remove f h3,
                      Some (match FindStringSubmatch b with
                            | [_; m1] => status_Errorf Aborted m1
                            | _ => errors_Wrap e b
                            end)))
          \/ (exists b,
                exec_CombinedOutput (promtoolPath svc)
                  ["check"; "config"; f] h2 = (b, None)
                /\ ((exists e,
                       os_fault (OpWriteFile (configPath svc) (bytes_of cfg))
                       = Some e
                       /\ saveConfigAndReload svc cfg h
                          = (restore_old os_fault torn http svc old mode
                               (Remove f
                                  (put (configPath svc) (torn (bytes_of cfg))
                                     mode h3)),
                             Some e))
                    \/ (exists h5 e,
                          reload http h4 = (h5, Some e)
                          /\ saveConfigAndReload svc cfg h
                             = (restore_old os_fault torn http svc old mode
                                  (Remove f h5), Some e))
                    \/ (exists h5,
                          reload http h4 = (h5, None)
                          /\ saveConfigAndReload svc cfg h
                             = (Remove f h5, None)))).
Proof.
  unfold prometheus.saveConfigAndReload.
  destruct (ReadFile _ _ _) as [e|old] eqn:Hread;
    [left; eexists; split; [reflexivity|discriminate]|].
  apply ReadFile_Some in Hread as (_ & mode & Hold).
  destruct (DeepEqual cfg old) eqn:Heq.
  { left. eexists. split; [reflexivity|]. intros _.
    apply DeepEqual_true in Heq. subst cfg. exists mode. split; [exact Hold|].
    discriminate. }
  unfold Stat. destruct (os_fault (OpStat _));
    [left; eexists; split; [reflexivity|discriminate]|].
  rewrite Hold.
  destruct (TempFile _ _ _) as [e|[f h1]] eqn:Htemp;
    [left; eexists; split; [reflexivity|discriminate]|].
  apply TempFile_fresh in Htemp as (Hf & ->).
  right. exists old, mode, f. split; [first [exact Hold|reflexivity]|].
  split; [exact Hf|]. split; [first [exact Heq|reflexivity]|]. cbn zeta.
  assert (Hne : f <> configPath svc) by (intros ->; congruence).
  unfold Write. destruct (os_fault (OpWrite _ _)) as [e|];
    [left; eauto|]. right.
  destruct (exec_CombinedOutput _ _ _) as [b [e|]];
    [left; eauto|]. right. exists b. split; [reflexivity|].
  unfold WriteFile. cbn [files put record].
  rewrite !lookup_insert_ne by done. rewrite Hold.
  destruct (os_fault (OpWriteFile _ _)) as [e|]; [left; eauto|]. right.
  fold (put (configPath svc) (bytes_of cfg) mode
          (record (executed (promtoolPath svc) ["check"; "config"; f])
             (put f (bytes_of cfg) 384 (put f "" 384 h)))).
  destruct (reload _ _) as [h5 [e|]]; [left|right]; eauto.
Qed.

Lemma restore_old_files svc old mode h content :
  files h !! configPath svc = Some (content, mode) ->
  os_fault (OpWriteFile (configPath svc) old) = None ->
  files (restore_old os_fault torn http svc old mode h)
  = <[configPath svc := (old, mode)]> (files h).
Proof.
  intros Hc Hw. unfold restore_old, WriteFile. rewrite Hc, Hw. cbn [fst].
  destruct (reload _ _) as [h' r] eqn:Hr. cbn [fst].
  apply reload_files in Hr as (-> & _). reflexivity.
Qed.

Lemma restore_old_done svc old mode h :
  done (restore_old os_fault torn http svc old mode h)
  = done h ++ [requested (POST ["-"; "reload"])].
Proof.
  unfold restore_old.
  destruct (reload _ _) as [h' r] eqn:Hr. cbn [fst].
  apply reload_files in Hr as (_ & ->).
  unfold WriteFile. destruct (os_fault _); reflexivity.
Qed.


Lemma restore_old_other svc old mode h p :
  p <> configPath svc ->
  files (restore_old os_fault torn http svc old mode h) !! p = files h !! p.
Proof.
  intros Hp. unfold restore_old.
  destruct (reload _ _) as [h' r] eqn:Hr. cbn [fst].
  apply reload_files in Hr as (-> & _).
  unfold WriteFile. destruct (os_fault _); cbn [fst files put];
    now rewrite lookup_insert_ne.
Qed.

(** X7: nothing reaches the configuration file or Prometheus before
    promtool has accepted it.  Whenever a call changes the configuration
    file, or asks Prometheus to reload, promtool's check has succeeded on a
    temporary file that did not exist before and held exactly the bytes
    given. *)
Theorem saveConfigAndReload_checks_first svc cfg h :
  let h' := fst (saveConfigAndReload svc cfg h) in
  files h' !! configPath svc <> files h !! configPath svc
  \/ (exists before after,
        done h' = before ++ requested (POST ["-"; "reload"]) :: after
        /\ length (done h) <= length before) ->
  exists f b,
    files h !! f = None
    /\ exec_CombinedOutput (promtoolPath svc) ["check"; "config"; f]
         (put f (bytes_of cfg) 384 (put f "" 384 h)) = (b, None).
Proof.
  cbn zeta. intros Hchanged.
  destruct (saveConfigAndReload_paths svc cfg h)
    as [(r & Hr & _)|(old & mode & f & Hold & Hf & Heq & Hpaths)].
  { exfalso. rewrite Hr in Hchanged. cbn [fst] in Hchanged.
    destruct Hchanged as [Hc|(before & after & Hd & Hlen)]; [now apply Hc|].
    apply (f_equal (@length _)) in Hd. rewrite length_app in Hd.
    cbn in Hd. lia. }
  assert (Hne : f <> configPath svc) by (intros ->; congruence).
  cbn zeta in Hpaths.
  destruct Hpaths as [(e1 & Hr & _)
                     |[(b & e1 & _ & Hr)|(b & Hexec & _)]];
    [exfalso; rewrite Hr in Hchanged; cbn [fst] in Hchanged ..
    |exists f, b; auto].
  - destruct Hchanged as [Hc|(before & after & Hd & Hlen)].
    + apply Hc. cbn [files put]. now rewrite !lookup_insert_ne by done.
    + cbn [done put] in Hd.
      apply (f_equal (@length _)) in Hd. rewrite length_app in Hd.
      cbn in Hd. lia.
  - destruct Hchanged as [Hc|(before & after & Hd & Hlen)].
    + apply Hc. cbn [files put Remove record].
      rewrite lookup_delete_ne by done.
      now rewrite !lookup_insert_ne by done.
    + cbn [done put Remove record] in Hd.
      assert (Hlast : list.last (done h ++ [executed (promtoolPath svc)
                                              ["check"; "config"; f]])
                      = list.last (before ++ requested (POST ["-"; "reload"])
                                     :: after)) by now rewrite Hd.
      pose proof (f_equal (@length _) Hd) as Hl.
      rewrite !length_app in Hl. cbn in Hl.
      assert (after = []) by (destruct after; [done|cbn in Hl; lia]).
      subst after. rewrite !last_snoc in Hlast. discriminate.
Qed.

(** X8: the call leaves no file behind and touches no file but the
    configuration file, with one exception: when the write to the
    temporary file fails, the function returns before its cleanup is
    registered, and the temporary file stays, holding whatever the failed
    write left. *)
Theorem saveConfigAndReload_temporary_file svc cfg h :
  let '(h', r) := saveConfigAndReload svc cfg h in
  (forall p, p <> configPath svc -> files h' !! p = files h !! p)
  \/ (exists f e,
        r = Some e
        /\ os_fault (OpWrite f (bytes_of cfg)) = Some e
        /\ files h !! f = None
        /\ files h' = <[f := (torn (bytes_of cfg), 384)]> (files h)).
Proof.
  destruct (saveConfigAndReload_paths svc cfg h)
    as [(r & -> & _)|(old & mode & f & Hold & Hf & Heq & Hpaths)];
    [now left|].
  assert (Hne : f <> configPath svc) by (intros ->; congruence).
  cbn zeta in Hpaths.
  destruct Hpaths as [(e1 & -> & He1)
                     |[(b & e1 & _ & ->)
                      |(b & _ & [(e1 & _ & ->)
                                |[(h5 & e1 & Hrel & ->)
                                 |(h5 & Hrel & ->)]])]].
  - right. exists f, e1. split; [reflexivity|]. split; [exact He1|].
    split; [exact Hf|]. cbn [files put]. now rewrite insert_insert_eq.
  - left. intros p Hp. cbn [files put Remove record].
    rewrite lookup_delete, !lookup_insert. repeat case_decide; congruence.
  - left. intros p Hp. rewrite restore_old_other by done.
    cbn [files put Remove record].
    rewrite lookup_delete, !lookup_insert. repeat case_decide; congruence.
  - left. intros p Hp. rewrite restore_old_other by done.
    apply reload_files in Hrel as (Hfiles & _).
    cbn [files Remove]. rewrite Hfiles. cbn [files put record].
    rewrite lookup_delete, !lookup_insert. repeat case_decide; congruence.
  - left. intros p Hp.
    apply reload_files in Hrel as (Hfiles & _).
    cbn [files Remove]. rewrite Hfiles. cbn [files put record].
    rewrite lookup_delete, !lookup_insert. repeat case_decide; congruence.
Qed.

Lemma saveConfigAndReload_again svc content h h' :
  saveConfigAndReload svc (Some content) h = (h', None) ->
  saveConfigAndReload svc (Some content) h' = (h', None)
  /\ exists mode, files h' !! configPath svc = Some (content, mode).
Proof.
  intros Hsave.
  assert (Hread : os_fault (OpReadFile (configPath svc)) = None).
  { revert Hsave. unfold prometheus.saveConfigAndReload, ReadFile.
    destruct (os_fault _); [discriminate|reflexivity]. }
  assert (Hfile : exists mode,
             files h' !! configPath svc = Some (content, mode)).
  { destruct (saveConfigAndReload_paths svc (Some content) h)
      as [(r & Hr & Hnil)|(old & mode & f & Hold & Hf & Heq & Hpaths)].
    - rewrite Hr in Hsave. injection Hsave as <- ->.
      destruct (Hnil eq_refl) as (mode & Hm & _). eauto.
    - cbn zeta in Hpaths.
      destruct Hpaths as [(e1 & Hr & _)
                         |[(b & e1 & _ & Hr)
                          |(b & _ & [(e1 & _ & Hr)
                                    |[(h5 & e1 & _ & Hr)
                                     |(h5 & Hrel & Hr)]])]];
        rewrite Hr in Hsave; try discriminate.
      injection Hsave as <-. exists mode.
      assert (Hne : f <> configPath svc) by (intros ->; congruence).
      apply reload_files in Hrel as (Hfiles & _).
      cbn [files Remove]. rewrite Hfiles. cbn [files put record bytes_of].
      rewrite lookup_delete_ne by done. apply lookup_insert_eq. }
  destruct Hfile as (mode & Hfile). split; [|eauto].
  unfold prometheus.saveConfigAndReload, ReadFile. rewrite Hread, Hfile.
  cbn [DeepEqual]. now rewrite String.eqb_refl.
Qed.

(** X9: a configuration that has just been installed is not installed
    again.  After a call with a slice that is not nil has returned nil, a
    second call with the same bytes returns nil without running promtool,
    without asking Prometheus anything and without touching a file. *)
Theorem saveConfigAndReload_idempotent svc content h h' :
  saveConfigAndReload svc (Some content) h = (h', None) ->
  saveConfigAndReload svc (Some content) h' = (h', None).
Proof. intros Hsave. now apply saveConfigAndReload_again in Hsave. Qed.

End PrometheusFiles.

Section PrometheusConfig.

Import prometheus.

Variable os_fault : OsOp -> option error.
Variable torn : string -> string.
Variable temp_name : Host -> string.
Variable exec_CombinedOutput :
  string -> list string -> Host -> string * option error.
Variable http : request -> Host -> http_result.
Variable FindStringSubmatch : string -> list string.

Context {Agent Service_ Node ScrapeConfig : Type}.

Variable ServiceType_of : Service_ -> models.ServiceType.
Variables scrapeConfigForPrometheus scrapeConfigForGrafana
          scrapeConfigForPMMManaged : ScrapeConfig.
Variable scrapeConfigsForMySQLdExporter :
  Node -> Service_ -> Agent -> result (list ScrapeConfig).
Variable scrapeConfigsForMongoDBExporter :
  Node -> Service_ -> Agent -> result ScrapeConfig.
Variable yaml_Marshal : Config ScrapeConfig -> result string.

Local Abbreviation Inventory := (prometheus.Inventory Agent Service_ Node).
Local Abbreviation services_loop :=
  (prometheus.services_loop ServiceType_of scrapeConfigsForMySQLdExporter
     scrapeConfigsForMongoDBExporter).
Local Abbreviation agents_loop :=
  (prometheus.agents_loop ServiceType_of scrapeConfigsForMySQLdExporter
     scrapeConfigsForMongoDBExporter).
Local Abbreviation buildConfig :=
  (prometheus.buildConfig ServiceType_of scrapeConfigForPrometheus
     scrapeConfigForGrafana scrapeConfigForPMMManaged
     scrapeConfigsForMySQLdExporter scrapeConfigsForMongoDBExporter).
Local Abbreviation marshalConfig :=
  (prometheus.marshalConfig ServiceType_of scrapeConfigForPrometheus
     scrapeConfigForGrafana scrapeConfigForPMMManaged
     scrapeConfigsForMySQLdExporter scrapeConfigsForMongoDBExporter
     yaml_Marshal).
Local Abbreviation UpdateConfiguration :=
  (prometheus.UpdateConfiguration os_fault torn temp_name
     exec_CombinedOutput http FindStringSubmatch
     ServiceType_of scrapeConfigForPrometheus
     scrapeConfigForGrafana scrapeConfigForPMMManaged
     scrapeConfigsForMySQLdExporter scrapeConfigsForMongoDBExporter
     yaml_Marshal).
Local Abbreviation Check :=
  (prometheus.Check os_fault torn temp_name
     exec_CombinedOutput http FindStringSubmatch
     ServiceType_of scrapeConfigForPrometheus
     scrapeConfigForGrafana scrapeConfigForPMMManaged
     scrapeConfigsForMySQLdExporter scrapeConfigsForMongoDBExporter
     yaml_Marshal).

Implicit Types (inv : Inventory) (svc : Service) (h : Host).

(** What one service adds to the scrape configurations, read where every
    lookup has gone through. *)
Local Abbreviation added_for inv agent :=
  (fun service : Service_ =>
     match ReloadNode inv service with
     | inr node =>
         if String.eqb (ServiceType_of service) models.MySQLServiceType then
           match scrapeConfigsForMySQLdExporter node service agent with
           | inr scfgs => scfgs
           | inl _ => []
           end
         else if String.eqb (ServiceType_of service)
                   models.MongoDBServiceType then
           match scrapeConfigsForMongoDBExporter node service agent with
           | inr scfg => [scfg]
           | inl _ => []
           end
         else []
     | inl _ => []
     end).

Lemma services_loop_flat inv agent services scs out :
  services_loop inv agent services scs = inr out ->
  out = scs ++ flat_map (added_for inv agent) services.
Proof.
  revert scs. induction services as [|service rest IH]; cbn; intros scs.
  - intros [= <-]. now rewrite app_nil_r.
  - destruct (ReloadNode inv service) as [e|node]; [discriminate|].
    destruct (String.eqb (ServiceType_of service) models.MySQLServiceType).
    + destruct (scrapeConfigsForMySQLdExporter _ _ _) as [e|scfgs];
        [discriminate|].
      intros H. apply IH in H. now rewrite H, app_assoc.
    + destruct (String.eqb (ServiceType_of service)
                  models.MongoDBServiceType).
      * destruct (scrapeConfigsForMongoDBExporter _ _ _) as [e|scfg];
          [discriminate|].
        intros H. apply IH in H. now rewrite H, <- app_assoc.
      * intros H. now apply IH in H.
Qed.

Lemma agents_loop_flat inv agents scs out :
  agents_loop inv agents scs = inr out ->
  out = scs ++ flat_map
                 (fun agent =>
                    match ServicesForAgent inv agent with
                    | inr services =>
                        flat_map (added_for inv agent) services
                    | inl _ => []
                    end) agents.
Proof.
  revert scs. induction agents as [|agent rest IH]; cbn; intros scs.
  - intros [= <-]. now rewrite app_nil_r.
  - destruct (ServicesForAgent inv agent) as [e|services]; [discriminate|].
    destruct (services_loop _ _ _ _) as [e|scs'] eqn:Hs; [discriminate|].
    apply services_loop_flat in Hs. subst scs'.
    intros H. apply IH in H. now rewrite H, app_assoc.
Qed.

(** X10: the configuration [marshalConfig] marshals always has the same
    global settings and rule files, and its scrape configurations are the
    three built-in ones, for Prometheus, Grafana and pmm-managed in that
    order, followed by what the services add, agent by agent in the order
    of the agents and service by service: the configurations of the
    mysqld exporter for a MySQL service, the one of the MongoDB exporter
    for a MongoDB service, nothing for a service of any other type. *)
Theorem marshalConfig_scrape_configs inv cfg :
  buildConfig inv = inr cfg ->
  ScrapeInterval cfg = 60 /\ ScrapeTimeout cfg = 10
  /\ EvaluationInterval cfg = 60
  /\ RuleFiles cfg = ["/etc/prometheus.d/*.rules.yml"]
  /\ exists agents,
       SelectAllAgents inv = inr agents
       /\ ScrapeConfigs cfg
          = [scrapeConfigForPrometheus; scrapeConfigForGrafana;
             scrapeConfigForPMMManaged]
            ++ flat_map
                 (fun agent =>
                    match ServicesForAgent inv agent with
                    | inr services =>
                        flat_map (added_for inv agent) services
                    | inl _ => []
                    end) agents.
Proof.
  unfold prometheus.buildConfig.
  destruct (Begin inv); [discriminate|].
  destruct (SelectAllAgents inv) as [e|agents]; [discriminate|].
  destruct (prometheus.agents_loop _ _ _ _ _ _) as [e|scs] eqn:Hloop;
    [discriminate|].
  destruct (Commit inv); [discriminate|].
  intros [= <-]. cbn. do 4 (split; [reflexivity|]).
  exists agents. split; [reflexivity|].
  now apply agents_loop_flat in Hloop.
Qed.

Lemma marshalConfig_header inv cfg :
  marshalConfig inv = inr cfg ->
  exists yaml, cfg = Some (header ++ yaml)%string.
Proof.
  unfold prometheus.marshalConfig.
  destruct (prometheus.buildConfig _ _ _ _ _ _ _) as [e|c]; [discriminate|].
  destruct (yaml_Marshal c) as [e|b]; [discriminate|].
  intros [= <-]. eauto.
Qed.


(** X12: [Check] goes on to the configuration only after both probes.
    Unless Prometheus has answered the version request with status 200 and
    a readable body, promtool has run with --version without error, and the
    configuration could be marshalled, [Check] returns an error, changes no
    file and asks Prometheus for no reload: it has made the version
    request and at most the promtool run. *)
Theorem Check_probes_first svc inv h :
  let '(h', r) := Check svc inv h in
  (exists body cfg,
     http (GET ["version"]) h = http_response 200 (inr body)
     /\ snd (exec_CombinedOutput (promtoolPath svc) ["--version"]
               (record (requested (GET ["version"])) h)) = None
     /\ marshalConfig inv = inr cfg)
  \/ (r <> None
      /\ files h' = files h
      /\ (done h' = done h ++ [requested (GET ["version"])]
          \/ done h'
             = done h ++ [requested (GET ["version"]);
                          executed (promtoolPath svc) ["--version"]])).
Proof.
  unfold prometheus.Check.
  destruct (http (GET ["version"]) h) as [e|code [e|body]];
    [right; split; [discriminate|auto]..|].
  destruct (Nat.eqb_spec code 200) as [->|Hcode];
    [|right; split; [discriminate|auto]].
  destruct (exec_CombinedOutput _ _ _) as [b [e|]] eqn:Hexec.
  { right. split; [discriminate|]. split; [reflexivity|]. right.
    cbn. now rewrite <- app_assoc. }
  unfold prometheus.UpdateConfiguration.
  destruct (prometheus.marshalConfig _ _ _ _ _ _ _ _) as [e|cfg] eqn:Hm.
  { right. split; [discriminate|]. split; [reflexivity|]. right.
    cbn. now rewrite <- app_assoc. }
  destruct (saveConfigAndReload _ _ _ _ _ _ _ _ _) as [h' r].
  left. exists body, cfg. split; [reflexivity|]. split; reflexivity.
Qed.

End PrometheusConfig.

(* ===================================================================== *)
(** * Properties of the VMAlert service *)
(* ===================================================================== *)

Section VMAlertProperties.

Import vmalert.

Variable NewRequest_error : request -> option error.
Variable http : request -> Service -> http_result.

Local Abbreviation IsReady := (vmalert.IsReady NewRequest_error http).
Local Abbreviation reload := (vmalert.reload NewRequest_error http).
Local Abbreviation updateConfiguration :=
  (vmalert.updateConfiguration NewRequest_error http).
Local Abbreviation RequestConfigurationUpdate :=
  (vmalert.RequestConfigurationUpdate NewRequest_error http).
Local Abbreviation Run_pass := (vmalert.Run_pass NewRequest_error http).
Local Abbreviation history := (vmalert.history NewRequest_error http).

Implicit Types (svc : Service).

Lemma reload_effect svc :
  sema (fst (reload svc)) = sema svc
  /\ (sent (fst (reload svc)) = sent svc
      \/ sent (fst (reload svc)) = sent svc ++ [GET ["-"; "reload"]]).
Proof.
  unfold vmalert.reload.
  destruct (NewRequest_error _); [auto|].
  destruct (http _ svc) as [e|code [e|b]]; [auto..|].
  destruct (code =? 200)%nat; auto.
Qed.

Lemma updateConfiguration_effect svc :
  sema (fst (updateConfiguration svc)) = sema svc
  /\ (sent (fst (updateConfiguration svc)) = sent svc
      \/ sent (fst (updateConfiguration svc))
         = sent svc ++ [GET ["-"; "reload"]]).
Proof.
  unfold vmalert.updateConfiguration.
  pose proof (reload_effect svc) as H.
  destruct (vmalert.reload _ _ svc) as [svc' [e|]]; exact H.
Qed.

Lemma RequestConfigurationUpdate_effect svc :
  1 <= sema (RequestConfigurationUpdate svc)
  /\ sema (RequestConfigurationUpdate svc) = Nat.max 1 (sema svc)
  /\ (1 <= sema svc -> RequestConfigurationUpdate svc = svc)
  /\ (sent (RequestConfigurationUpdate svc) = sent svc
      \/ sent (RequestConfigurationUpdate svc)
         = sent svc ++ [GET ["-"; "reload"]]).
Proof.
  unfold vmalert.RequestConfigurationUpdate.
  destruct (Nat.ltb_spec (sema svc) 1) as [Hlt|Hge].
  - destruct (updateConfiguration_effect
                {| sema := S (sema svc); sent := sent svc |}) as [Hs Hl].
    cbn [sema sent] in Hs, Hl. rewrite Hs.
    repeat split; try lia. exact Hl.
  - repeat split; try lia. now left.
Qed.

(** X13: update requests coalesce.  [RequestConfigurationUpdate] never
    blocks and always leaves a token in the channel; when a token is
    already there it does nothing, no request to VMAlert included.  So any
    number of calls in a row does what the first one does: at most one
    reload request, exactly one pending token. *)
Theorem RequestConfigurationUpdate_coalesces svc n :
  Nat.iter (S n) RequestConfigurationUpdate svc
  = RequestConfigurationUpdate svc
  /\ sema (RequestConfigurationUpdate svc) = Nat.max 1 (sema svc)
  /\ (1 <= sema svc -> RequestConfigurationUpdate svc = svc)
  /\ (sent (RequestConfigurationUpdate svc) = sent svc
      \/ sent (RequestConfigurationUpdate svc)
         = sent svc ++ [GET ["-"; "reload"]]).
Proof.
  split; [|apply RequestConfigurationUpdate_effect].
  induction n as [|n IH]; [reflexivity|].
  change (Nat.iter (S (S n)) RequestConfigurationUpdate svc)
    with (RequestConfigurationUpdate
            (Nat.iter (S n) RequestConfigurationUpdate svc)).
  rewrite IH.
  apply RequestConfigurationUpdate_effect.
  apply RequestConfigurationUpdate_effect.
Qed.

(** X14: the loop of [Run] stops on cancellation only, and a failed
    update is never dropped.  A pass returns from [Run] exactly when the
    context is done, at the [select] or by the end of the batching delay;
    in the second case the token is consumed and no request is made.
    Otherwise the pass consumes the token and asks VMAlert to reload; if
    that fails, the loop goes on with a token back in the channel, so that
    the update is tried again. *)
Theorem Run_pass_retries w svc svc' running :
  Run_pass w svc = Some (svc', running) ->
  (running = false <-> w = ctx_Done \/ w = token true)
  /\ (w = ctx_Done -> svc' = svc)
  /\ (w = token true ->
      S (sema svc') = sema svc /\ sent svc' = sent svc)
  /\ (w = token false ->
      let taken := {| sema := Nat.pred (sema svc); sent := sent svc |} in
      match snd (updateConfiguration taken) with
      | None => svc' = fst (updateConfiguration taken)
                /\ S (sema svc') = sema svc
      | Some _ => 1 <= sema svc'
                  /\ svc' = RequestConfigurationUpdate
                              (fst (updateConfiguration taken))
      end).
Proof.
  destruct w as [|[|]]; cbn [vmalert.Run_pass].
  - intros [= <- <-]. repeat split; auto; discriminate.
  - destruct (sema svc) as [|n] eqn:Hs; [discriminate|].
    intros [= <- <-]. cbn [sema sent].
    repeat split; auto; discriminate.
  - destruct (sema svc) as [|n] eqn:Hs; [discriminate|].
    cbn [Nat.pred].
    pose proof (updateConfiguration_effect {| sema := n; sent := sent svc |})
      as [Hsema _].
    destruct (vmalert.updateConfiguration _ _ _) as [svc2 [e|]];
      intros [= <- <-]; cbn [fst snd sema] in *.
    + split; [split; [discriminate|intros [|]; discriminate]|].
      split; [discriminate|]. split; [discriminate|]. intros _.
      split; [apply RequestConfigurationUpdate_effect|reflexivity].
    + split; [split; [discriminate|intros [|]; discriminate]|].
      split; [discriminate|]. split; [discriminate|]. intros _.
      split; [reflexivity|]. now rewrite Hsema.
Qed.

(** X15: along any history of update requests and passes of the loop, the
    channel never holds more than one token, and requests to VMAlert are
    only ever added.  Once [Run] has returned, the loop makes no pass, and
    however many updates are requested afterwards, at most one more reload
    request is made: the first request fills the channel and nothing
    empties it. *)
Theorem history_of_requests evs svc running svc' running' :
  sema svc <= 1 ->
  history evs svc running = Some (svc', running') ->
  sema svc' <= 1
  /\ (exists more, sent svc' = sent svc ++ more)
  /\ (running = false ->
      running' = false
      /\ length (sent svc') <= S (length (sent svc))
      /\ (1 <= sema svc -> svc' = svc)).
Proof.
  revert svc running.
  induction evs as [|ev evs IH]; intros svc running Hcap; cbn [vmalert.history].
  - intros [= <- <-]. split; [exact Hcap|]. split.
    + exists []. now rewrite app_nil_r.
    + intros Hoff. split; [exact Hoff|]. split; [lia|reflexivity].
  - destruct ev as [|w].
    + intros Hrest.
      pose proof (RequestConfigurationUpdate_effect svc)
        as (Hone & Hmax & Hfull & Hsent).
      apply IH in Hrest as (Hcap' & (more & Hmore) & Hstopped); [|lia].
      split; [exact Hcap'|]. split.
      * destruct Hsent as [Hs|Hs]; rewrite Hs in Hmore.
        -- now exists more.
        -- exists (GET ["-"; "reload"] :: more).
           now rewrite Hmore, <- app_assoc.
      * intros Hoff. destruct (Hstopped Hoff) as (Hr & Hlen & Hsame).
        split; [exact Hr|]. rewrite (Hsame Hone) in *. split.
        -- destruct Hsent as [Hs|Hs]; rewrite Hs; [lia|].
           rewrite length_app. cbn. lia.
        -- exact Hfull.
    + destruct running; [|discriminate].
      destruct (vmalert.Run_pass _ _ w svc) as [[svc1 r1]|] eqn:Hpass;
        [|discriminate].
      intros Hrest.
      assert (Hstep : sema svc1 <= 1 /\ exists m, sent svc1 = sent svc ++ m).
      { destruct w as [|[|]]; cbn [vmalert.Run_pass] in Hpass.
        - injection Hpass as <- <-. split; [exact Hcap|].
          exists []. now rewrite app_nil_r.
        - destruct (sema svc) as [|n] eqn:Hs; [discriminate|].
          injection Hpass as <- <-. cbn [sema sent]. split; [lia|].
          exists []. now rewrite app_nil_r.
        - destruct (sema svc) as [|n] eqn:Hs; [discriminate|].
          pose proof (updateConfiguration_effect
                        {| sema := n; sent := sent svc |}) as [Hsema Hsent].
          destruct (vmalert.updateConfiguration _ _ _) as [svc2 [e|]];
            injection Hpass as <- <-; cbn [fst sema sent] in *.
          + pose proof (RequestConfigurationUpdate_effect svc2)
              as (_ & Hmax & _ & Hsent2).
            split; [lia|].
            destruct Hsent as [Ha|Ha], Hsent2 as [Hb|Hb];
              rewrite Hb, Ha, <- ?app_assoc;
              first [eexists; reflexivity
                    |exists []; now rewrite app_nil_r].
          + split; [lia|].
            destruct Hsent as [Ha|Ha]; rewrite Ha;
              first [eexists; reflexivity
                    |exists []; now rewrite app_nil_r]. }
      destruct Hstep as (Hcap1 & m & Hm).
      apply IH in Hrest as (Hcap' & (more & Hmore) & _); [|exact Hcap1].
      split; [exact Hcap'|]. split; [|discriminate].
      exists (m ++ more). now rewrite Hmore, Hm, <- app_assoc.
Qed.

(** X16: [IsReady] and [reload] judge an answer the same way.  Each makes
    at most one request and returns nil exactly when the request could be
    built and VMAlert answered it with status 200 and a body that could be
    read; a body that cannot be read is reported even under status 200,
    and before the status is looked at. *)
Theorem IsReady_and_reload_nil svc :
  (snd (IsReady svc) = None <->
   NewRequest_error (GET ["health"]) = None
   /\ exists body, http (GET ["health"]) svc = http_response 200 (inr body))
  /\ (snd (reload svc) = None <->
      NewRequest_error (GET ["-"; "reload"]) = None
      /\ exists body,
           http (GET ["-"; "reload"]) svc = http_response 200 (inr body))
  /\ (forall code e,
        NewRequest_error (GET ["health"]) = None ->
        http (GET ["health"]) svc = http_response code (inl e) ->
        snd (IsReady svc) = Some e)
  /\ (forall code e,
        NewRequest_error (GET ["-"; "reload"]) = None ->
        http (GET ["-"; "reload"]) svc = http_response code (inl e) ->
        snd (reload svc) = Some e).
Proof.
  unfold vmalert.IsReady, vmalert.reload.
  split; [|split; [|split]].
  - destruct (NewRequest_error (GET ["health"])) as [e0|].
    { cbn. split; [discriminate|intros [? _]; discriminate]. }
    destruct (http _ svc) as [e|code [e|b]]; cbn.
    + split; [discriminate|intros (_ & ? & ?); discriminate].
    + split; [discriminate|intros (_ & ? & ?); discriminate].
    + destruct (Nat.eqb_spec code 200) as [->|Hc]; cbn.
      * split; eauto.
      * split; [discriminate|intros (_ & ? & [= ? ?]); contradiction].
  - destruct (NewRequest_error (GET ["-"; "reload"])) as [e0|].
    { cbn. split; [discriminate|intros [? _]; discriminate]. }
    destruct (http _ svc) as [e|code [e|b]]; cbn.
    + split; [discriminate|intros (_ & ? & ?); discriminate].
    + split; [discriminate|intros (_ & ? & ?); discriminate].
    + destruct (Nat.eqb_spec code 200) as [->|Hc]; cbn.
      * split; eauto.
      * split; [discriminate|intros (_ & ? & [= ? ?]); contradiction].
  - intros code e -> ->. reflexivity.
  - intros code e -> ->. reflexivity.
Qed.

End VMAlertProperties.

(* ===================================================================== *)
(** * Properties of the Node/Register client *)
(* ===================================================================== *)

Section NodeClientProperties.

Import node.

Context {Body OKBody DefaultBody : Type}.
Variable Consume_OK : Body -> OKBody * option consume_error.
Variable Consume_Default : Body -> DefaultBody * option consume_error.

Local Abbreviation ReadResponse :=
  (node.ReadResponse Consume_OK Consume_Default).

Lemma quot_100_is_2 (code : Z) :
  (Z.quot code 100 = 2 <-> 200 <= code <= 299)%Z.
Proof.
  split.
  - intros H. pose proof (Z.quot_rem' code 100) as Hqr. rewrite H in Hqr.
    assert (0 <= code)%Z.
    { destruct (Z.le_gt_cases 0 code) as [|Hneg]; [assumption|].
      pose proof (Z.quot_opp_l code 100 ltac:(lia)) as Ho.
      pose proof (Z.quot_pos (- code) 100 ltac:(lia) ltac:(lia)). lia. }
    pose proof (Z.rem_bound_pos code 100 ltac:(lia) ltac:(lia)). lia.
  - intros H. symmetry. apply (Z.quot_unique code 100 2 (code - 200)); lia.
Qed.

(** X17: [ReadResponse] gives a result exactly for the status codes 200
    to 299, unless the consumer fails with something other than end of
    input.  Status 200 gives a [RegisterNodeOK]; any other code from 201 to
    299 gives, as a result and not as an error, a [RegisterNodeDefault]
    carrying the code; every other code gives that [RegisterNodeDefault] as
    the error.  The end of input while consuming is never an error. *)
Theorem ReadResponse_by_status (code : Z) (body : Body) :
  match ReadResponse code body with
  | result_OK payload =>
      code = 200%Z /\ payload = fst (Consume_OK body)
  | result_Default c payload =>
      c = code /\ (201 <= code <= 299)%Z
      /\ payload = fst (Consume_Default body)
  | error_Default c payload =>
      c = code /\ (code < 200 \/ 300 <= code)%Z
      /\ payload = fst (Consume_Default body)
  | error_consumer e =>
      (code = 200%Z /\ snd (Consume_OK body) = Some (consume_failed e))
      \/ (code <> 200%Z
          /\ snd (Consume_Default body) = Some (consume_failed e))
  end.
Proof.
  unfold node.ReadResponse.
  destruct (Z.eqb_spec code 200) as [->|Hne].
  - destruct (Consume_OK body) as [payload [[|e]|]]; cbn; auto.
  - destruct (Consume_Default body) as [payload [[|e]|]]; cbn; auto;
      destruct (Z.eqb_spec (Z.quot code 100) 2) as [Hq|Hq];
      repeat split;
      try (apply quot_100_is_2 in Hq; lia);
      try (destruct (Z.le_gt_cases 200 code);
           destruct (Z.le_gt_cases 300 code); try lia;
           exfalso; apply Hq; apply quot_100_is_2; lia).
Qed.

(** X18: [Validate] of a [RegisterNodeBody] accepts a body without node
    type and a body whose node type is, letter for letter, one of
    NODE_TYPE_INVALID, GENERIC_NODE, CONTAINER_NODE, REMOTE_NODE and
    REMOTE_RDS_NODE; it rejects every other body, a pointer to the empty
    string included, with a composite of one error that names
    body.node_type, the value and the five values allowed. *)
Theorem RegisterNodeBody_Validate (o : RegisterNodeBody) :
  (Validate o = None <->
   NodeType o = None
   \/ exists value,
        NodeType o = Some value
        /\ In value ["NODE_TYPE_INVALID"; "GENERIC_NODE"; "CONTAINER_NODE";
                     "REMOTE_NODE"; "REMOTE_RDS_NODE"])
  /\ (forall err, Validate o = Some err ->
        exists value,
          NodeType o = Some value
          /\ err = CompositeValidationError
                     [EnumFail "body.node_type" "body" value
                        registerNodeBodyTypeNodeTypePropEnum])
  /\ Validate {| NodeType := Some "" |} <> None
  /\ Validate {| NodeType := Some "generic_node" |} <> None.
Proof.
  split; [|split; [|split; discriminate]].
  - unfold Validate, validateNodeType, validateNodeTypeEnum, EnumCase.
    destruct (NodeType o) as [value|]; [|cbn; split; auto].
    destruct (existsb _ _) eqn:Hex; cbn.
    + split; [|reflexivity]. intros _. right. exists value.
      split; [reflexivity|].
      apply existsb_exists in Hex as (x & Hin & Heq).
      apply String.eqb_eq in Heq. now subst.
    + split; [discriminate|].
      intros [|(v & [= <-] & Hin)]; [discriminate|].
      assert (existsb (String.eqb value)
                registerNodeBodyTypeNodeTypePropEnum = true)
        by (apply existsb_exists; exists value;
            split; [exact Hin|apply String.eqb_refl]).
      congruence.
  - intros err. unfold Validate, validateNodeType, validateNodeTypeEnum,
      EnumCase.
    destruct (NodeType o) as [value|]; [|discriminate].
    destruct (existsb _ _); cbn; [discriminate|].
    intros [= <-]. eauto.
Qed.

End NodeClientProperties.

(* ===================================================================== *)
(** * Properties of the agent connection *)
(* ===================================================================== *)

Section ConnectProperties.

Import handlers.

Context {AuthRequest Timestamp Time : Type}.

Local Abbreviation AgentPayload :=
  (handlers.AgentPayload AuthRequest Timestamp).
Local Abbreviation tick := (handlers.tick AuthRequest Timestamp).

Variable type_name_of : AgentPayload -> string.
Variable ptypes_Timestamp : option Timestamp -> result Time.

Local Abbreviation pings := (handlers.pings ptypes_Timestamp).
Local Abbreviation Connect :=
  (handlers.Connect type_name_of ptypes_Timestamp).

Lemma pings_sent (ticks : list tick) out :
  exists n,
    fst (pings ticks out) = out ++ repeat server_Ping n
    /\ n <= length ticks
    /\ (snd (pings ticks out) = returned None -> In stream_Done ticks)
    /\ (snd (pings ticks out) = looping ->
        n = length ticks /\ ~ In stream_Done ticks).
Proof.
  revert out. induction ticks as [|t ticks IH]; intros out;
    cbn [handlers.pings].
  - exists 0. cbn. rewrite app_nil_r. repeat split; auto; discriminate.
  - destruct t as [|answer].
    + exists 0. cbn. rewrite app_nil_r.
      repeat split; auto; try lia; discriminate.
    + assert (Hstop : forall e : ending,
                e <> returned None -> e <> looping ->
                exists n,
                  fst (out ++ [server_Ping], e)
                  = out ++ repeat server_Ping n
                  /\ n <= length (ticked answer :: ticks)
                  /\ (snd (out ++ [server_Ping], e) = returned None ->
                      In stream_Done (ticked answer :: ticks))
                  /\ (snd (out ++ [server_Ping], e) = looping ->
                      n = length (ticked answer :: ticks)
                      /\ ~ In stream_Done (ticked answer :: ticks))).
      { intros e H1 H2. exists 1. cbn. repeat split; try lia; contradiction. }
      destruct answer as [|auth|[ping|]|name];
        try (apply Hstop; discriminate).
      destruct (ptypes_Timestamp (CurrentTime ping)) as [e|t];
        [apply Hstop; discriminate|].
      destruct (IH (out ++ [server_Ping])) as (n & Hout & Hn & Hnil & Hloop).
      exists (S n). rewrite Hout. cbn [repeat length].
      rewrite <- app_assoc. cbn [app].
      split; [reflexivity|]. split; [lia|]. split.
      * intros H. right. now apply Hnil.
      * intros H. destruct (Hloop H) as [-> Hno]. split; [reflexivity|].
        intros [Hd|Hd]; [discriminate|contradiction].
Qed.

(** X19: [Connect] writes nothing to an agent that has not
    authenticated.  Unless the first message received carries an auth
    request, and the auth response could be sent, nothing is sent and an
    error is returned.  After that, what is sent is the auth response
    followed by one ping per tick of the ticker, and the call returns nil
    only because the stream's context is done. *)
Theorem Connect_authenticates_first first send_error (ticks : list tick) :
  let '(out, e) := Connect first send_error ticks in
  (out = [] /\ exists err, e = returned (Some err))
  \/ (exists auth n,
        first = inr (payload_Auth (Some auth))
        /\ send_error = None
        /\ out = server_Auth :: repeat server_Ping n
        /\ n <= length ticks
        /\ (e = returned None -> In stream_Done ticks)
        /\ (e = looping -> n = length ticks /\ ~ In stream_Done ticks)).
Proof.
  unfold handlers.Connect.
  destruct first as [e0|[|[auth|]|ping|name]]; try (left; eauto).
  destruct send_error as [e0|]; [left; eauto|].
  destruct (pings_sent ticks [server_Auth]) as (n & Hout & Hn & Hnil & Hloop).
  destruct (handlers.pings _ ticks [server_Auth]) as [out e].
  cbn [fst snd] in *. right. exists auth, n. subst out. cbn [app]. auto 7.
Qed.

End ConnectProperties.

(* ===================================================================== *)
(** * More about the tasks *)
(* ===================================================================== *)

Section TaskData.

Import scheduler.

Context {backupsLogicService : Type}.
Variable PerformBackup :
  backupsLogicService -> string -> string -> string -> result string.

Implicit Types (t : Task backupsLogicService).

(** X20: the data of a task and its type tag always agree: [Data] fills
    exactly the one part that [Type] names and leaves the other two nil,
    so two tasks with the same data have the same type tag, and the
    constructor the tag selects always finds its part. *)
Theorem Data_agrees_with_Type t :
  match Type_ t with
  | ScheduledPrintTask =>
      Print (Data t) <> None
      /\ MySQLBackupTask (Data t) = None /\ MongoBackupTask (Data t) = None
  | ScheduledMySQLBackupTask =>
      Print (Data t) = None
      /\ MySQLBackupTask (Data t) <> None /\ MongoBackupTask (Data t) = None
  | ScheduledMongoBackupTask =>
      Print (Data t) = None
      /\ MySQLBackupTask (Data t) = None /\ MongoBackupTask (Data t) <> None
  end
  /\ forall t', Data t = Data t' -> Type_ t = Type_ t'.
Proof.
  split.
  - destruct t; cbn; repeat split; discriminate.
  - intros t'. destruct t, t'; cbn; congruence.
Qed.


End TaskData.

(* ===================================================================== *)
(** * The further properties on the samples *)
(* ===================================================================== *)

Section MoreExamples.

Import models backup sample sample_host.

Local Abbreviation save :=
  (prometheus.saveConfigAndReload no_fault torn temp_name promtool server
     no_match).
Local Abbreviation update :=
  (prometheus.UpdateConfiguration no_fault torn temp_name promtool server
     no_match snd "prometheus" "grafana" "pmm-managed"
     mysqld_exporter mongodb_exporter yaml).

(** X4 on the sample installation: the nightly backup of the first MySQL
    service, restored at once. *)
Lemma backup_then_restore_witness :
  exists s1 s2 artifactID restoreID backupJob restoreJob,
    StartBackup healthy row_id accepting (nightly "svc-mysql-1") service
    = (s1, inr {| ArtifactId := artifactID |})
    /\ RestoreBackup healthy row_id accepting
         {| rbr_ServiceId := "svc-mysql-1"; rbr_ArtifactId := artifactID |} s1
       = (s2, inr {| RestoreId := restoreID |})
    /\ jobsService s2
       = jobsService service
         ++ [StartMySQLBackupJob backupJob "pmm-agent-1" 0 "nightly"
               "root@tcp(10.0.0.1:3306)/" (locationConfig_of loc1);
             StartMySQLRestoreBackupJob restoreJob "pmm-agent-1"
               "svc-mysql-1" 0 "nightly" (locationConfig_of loc1)]
    /\ restore_history (db s2)
       = restore_history (db service)
         ++ [{| RestoreHistoryItem_ID := restoreID;
                rhi_ArtifactID := artifactID;
                rhi_ServiceID := "svc-mysql-1";
                rhi_Status := InProgressRestoreStatus |}].
Proof.
  apply (backup_then_restore healthy row_id accepting
           (nightly "svc-mysql-1") service mysql1 loc1
           "root@tcp(10.0.0.1:3306)/" agent1 [agent2]);
    try reflexivity.
  intros a [<-|[]]. vm_compute. discriminate.
Defined.

(** X5 on the sample host: a new configuration is installed. *)
Lemma saveConfigAndReload_nil_result_witness :
  exists old mode,
    prometheus.files host !! "/etc/prometheus.yml" = Some (old, mode)
    /\ prometheus.files (fst (save prom (Some "new") host))
       = <["/etc/prometheus.yml" := ("new", mode)]> (prometheus.files host)
    /\ ((Some "new" = Some old /\ fst (save prom (Some "new") host) = host)
        \/ exists f,
             prometheus.files host !! f = None
             /\ prometheus.done (fst (save prom (Some "new") host))
                = prometheus.done host
                  ++ [prometheus.executed "/usr/bin/promtool"
                        ["check"; "config"; f];
                      prometheus.requested (POST ["-"; "reload"])]).
Proof.
  apply (saveConfigAndReload_nil_result no_fault torn temp_name promtool
           server no_match prom (Some "new") host).
  vm_compute. reflexivity.
Defined.


(** X7 on the sample host: the new configuration was checked first. *)
Lemma saveConfigAndReload_checks_first_witness :
  exists f b,
    prometheus.files host !! f = None
    /\ promtool "/usr/bin/promtool" ["check"; "config"; f]
         (prometheus.put f "new" 384 (prometheus.put f "" 384 host))
       = (b, None).
Proof.
  apply (saveConfigAndReload_checks_first no_fault torn temp_name promtool
           server no_match prom (Some "new") host).
  left. vm_compute. discriminate.
Defined.

(** X9 on the sample host. *)
Lemma saveConfigAndReload_idempotent_witness :
  save prom (Some "new") (fst (save prom (Some "new") host))
  = (fst (save prom (Some "new") host), None).
Proof.
  apply (saveConfigAndReload_idempotent no_fault torn temp_name promtool
           server no_match prom "new" host).
  vm_compute. reflexivity.
Defined.

(** X10 on the sample inventory: the two configurations of the MySQL
    service, nothing for the PostgreSQL one, then the MongoDB one. *)
Lemma marshalConfig_scrape_configs_witness :
  exists cfg,
    prometheus.buildConfig snd "prometheus" "grafana" "pmm-managed"
      mysqld_exporter mongodb_exporter inventory = inr cfg
    /\ prometheus.ScrapeConfigs cfg
       = ["prometheus"; "grafana"; "pmm-managed";
          "db-1-hr"; "db-1-lr"; "db-3-mongo"].
Proof.
  destruct (prometheus.buildConfig snd "prometheus" "grafana" "pmm-managed"
              mysqld_exporter mongodb_exporter inventory)
    as [e|cfg] eqn:Hcfg; [vm_compute in Hcfg; discriminate|].
  exists cfg. split; [reflexivity|].
  destruct (marshalConfig_scrape_configs snd "prometheus" "grafana"
              "pmm-managed" mysqld_exporter mongodb_exporter inventory cfg
              Hcfg)
    as (_ & _ & _ & _ & agents & Hagents & ->).
  vm_compute in Hagents. injection Hagents as <-. reflexivity.
Defined.


(** X14 with VMAlert down: the pass fails, and the token is back. *)
Lemma Run_pass_retries_witness :
  exists svc',
    vmalert.Run_pass buildable down (vmalert.token false)
      {| vmalert.sema := 1; vmalert.sent := [] |} = Some (svc', true)
    /\ 1 <= vmalert.sema svc'
    /\ vmalert.sent svc' = [GET ["-"; "reload"]; GET ["-"; "reload"]].
Proof.
  eexists. split; [vm_compute; reflexivity|].
  split; [|reflexivity].
  destruct (Run_pass_retries buildable down (vmalert.token false)
              {| vmalert.sema := 1; vmalert.sent := [] |} _ true eq_refl)
    as (_ & _ & _ & Hfailed).
  exact (proj1 (Hfailed eq_refl)).
Defined.

(** X15 after [Run] has returned: three requests, one reload. *)
Lemma history_of_requests_witness :
  exists svc',
    vmalert.history buildable down
      [vmalert.request_update; vmalert.request_update;
       vmalert.request_update] alert false = Some (svc', false)
    /\ vmalert.sema svc' <= 1
    /\ length (vmalert.sent svc') <= 1.
Proof.
  eexists. split; [vm_compute; reflexivity|].
  destruct (history_of_requests buildable down
              [vmalert.request_update; vmalert.request_update;
               vmalert.request_update] alert false _ false
              ltac:(cbn; lia) eq_refl)
    as (Hcap & _ & Hoff).
  split; [exact Hcap|]. exact (proj1 (proj2 (Hoff eq_refl))).
Defined.

End MoreExamples.
